(** * TOS-IOSAuto: a shallow embedding of [main.py]

    The program keeps an ordered store of captured screen regions
    ([CaptureInfo]), persists it as JSON with base64-embedded PNG images,
    replays clicks on the regions whose live OCR text still matches
    ([execute_all_clicks]) and can do so forever from a worker thread
    ([WorkerThread], [start_infinite_execution], [stop_infinite_execution]).

    Python objects are embedded as follows.
    - A value that [json.load] can produce is a [pyval]; JSON numbers with
      a fraction or an exponent (Python floats) are outside the embedding.
    - A Python [str] is a [string] of code points below 256; [bytes] is a
      [list ascii].
    - A raised exception is the [Raise] case of [result]; only subclasses
      of [Exception] are modelled, which is what [except Exception] sees.
    - Calls to pyautogui, ddddocr, PIL, Qt imaging and the json text codec
      are parameters (classes [Desktop] and [Codecs]); every call that
      reaches the pointer or the user is also recorded in a trace. *)

From Stdlib Require Import ZArith NArith Ascii String List Lia Bool.
From stdpp Require Import base option gmap strings list.

#[local] Open Scope Z_scope.
#[local] Set Warnings "-register-all".

(** ** Exceptions and results *)

Inductive exn : Type :=
| KeyError (key : string)
| TypeError
| AttributeError
| IndexError
| ValueError
| BinasciiError
| JSONDecodeError
| FileNotFoundError
| ExternalError (code : nat).

Inductive result (A : Type) : Type :=
| Ok (a : A)
| Raise (e : exn).
Arguments Ok {A} a.
Arguments Raise {A} e.

(** ** Python values produced by [json.load] *)

Inductive pyval : Type :=
| PNone
| PBool (b : bool)
| PInt (n : Z)
| PStr (s : string)
| PList (l : list pyval)
| PDict (d : gmap string pyval).

(** [bool] is a subclass of [int]: arithmetic, [range] and [==] against an
    [int] see [True] as 1 and [False] as 0.  Every other non-[int] value
    makes those operations raise [TypeError]. *)
Definition as_int (v : pyval) : option Z :=
  match v with
  | PInt n => Some n
  | PBool b => Some (if b then 1 else 0)
  | _ => None
  end.

(** [v == n] for an [int] literal [n]. *)
Definition py_eq_int (v : pyval) (n : Z) : bool :=
  match as_int v with
  | Some m => Z.eqb m n
  | None => false
  end.

(** [v in l] and [l.index(v)] for a list of [int] literals. *)
Definition py_in (v : pyval) (l : list Z) : bool := existsb (py_eq_int v) l.

Fixpoint py_index (v : pyval) (l : list Z) : option nat :=
  match l with
  | [] => None
  | n :: l' => if py_eq_int v n then Some O else S <$> py_index v l'
  end.

(** [d[key]]: only a [dict] can be subscripted with a [str]. *)
Definition py_getitem (data : pyval) (key : string) : result pyval :=
  match data with
  | PDict d => match d !! key with
               | Some v => Ok v
               | None => Raise (KeyError key)
               end
  | _ => Raise TypeError
  end.

(** [d.get(key, dflt)]; only a [dict] has the method. *)
Definition py_get (data : pyval) (key : string) (dflt : pyval) : result pyval :=
  match data with
  | PDict d => Ok (default dflt (d !! key))
  | _ => Raise AttributeError
  end.

(** [for item in v]: a list yields its items, a dict its keys, a str its
    characters; nothing else is iterable. *)
Definition py_iter (v : pyval) : result (list pyval) :=
  match v with
  | PList l => Ok l
  | PDict d => Ok (PStr <$> (map_to_list d).*1)
  | PStr s => Ok ((fun c => PStr (String c EmptyString)) <$> list_ascii_of_string s)
  | _ => Raise TypeError
  end.

(** ** [str.strip()] *)

(** [str.isspace] on the code points below 256: TAB..CR, FS..US, SPACE,
    NEL and NBSP. *)
Definition is_space (c : ascii) : bool :=
  let n := N_of_ascii c in
  ((9 <=? n) && (n <=? 13) || (28 <=? n) && (n <=? 32) ||
   (n =? 133) || (n =? 160))%N.

Fixpoint lstrip (s : string) : string :=
  match s with
  | EmptyString => EmptyString
  | String c s' => if is_space c then lstrip s' else s
  end.

Fixpoint rstrip (s : string) : string :=
  match s with
  | EmptyString => EmptyString
  | String c s' =>
      match rstrip s' with
      | EmptyString => if is_space c then EmptyString else String c EmptyString
      | t => String c t
      end
  end.

Definition strip (s : string) : string := rstrip (lstrip s).

(** [a.strip() == b.strip()] *)
Definition strip_eqb (a b : string) : bool := String.eqb (strip a) (strip b).

(** ** [base64.b64encode] and [base64.b64decode]

    The standard alphabet of RFC 4648 with padding, as the [base64] module
    of the Python library implements it.  [b64decode] is called without
    [validate], so characters outside the alphabet are discarded, padding
    ends the data, and a truncated last group raises [binascii.Error]. *)

Definition bytes : Type := list ascii.

Definition b64_char (n : N) : ascii :=
  (if n <? 26 then ascii_of_N (65 + n)
   else if n <? 52 then ascii_of_N (71 + n)
   else if n <? 62 then ascii_of_N (n - 4)
   else if n =? 62 then "+"%char
   else "/"%char)%N.

Definition b64_index (c : ascii) : option N :=
  let n := N_of_ascii c in
  (if (65 <=? n) && (n <=? 90) then Some (n - 65)
   else if (97 <=? n) && (n <=? 122) then Some (n - 71)
   else if (48 <=? n) && (n <=? 57) then Some (n + 4)
   else if n =? 43 then Some 62
   else if n =? 47 then Some 63
   else None)%N.

Definition pad_char : ascii := "="%char.

Fixpoint b64encode (bs : bytes) : string :=
  match bs with
  | [] => EmptyString
  | [a] =>
      let a := N_of_ascii a in
      String (b64_char (a / 4))
        (String (b64_char (a mod 4 * 16))
           (String pad_char (String pad_char EmptyString)))
  | [a; b] =>
      let a := N_of_ascii a in
      let b := N_of_ascii b in
      String (b64_char (a / 4))
        (String (b64_char (a mod 4 * 16 + b / 16))
           (String (b64_char (b mod 16 * 4))
              (String pad_char EmptyString)))
  | a :: b :: c :: rest =>
      let a := N_of_ascii a in
      let b := N_of_ascii b in
      let c := N_of_ascii c in
      String (b64_char (a / 4))
        (String (b64_char (a mod 4 * 16 + b / 16))
           (String (b64_char (b mod 16 * 4 + c / 64))
              (String (b64_char (c mod 64)) (b64encode rest))))
  end%N.

Definition emit (n : N) (r : result bytes) : result bytes :=
  match r with
  | Ok out => Ok (ascii_of_N n :: out)
  | Raise e => Raise e
  end.

(** The decoding loop of [binascii.a2b_base64] in its default, non-strict
    mode.  [quad_pos] is the position inside the current group of four,
    [leftchar] the bits left over from the previous character and [pads]
    the number of padding characters seen in a row. *)
Fixpoint a2b_base64 (cs : list ascii) (quad_pos : nat) (leftchar : N)
    (pads : nat) : result bytes :=
  match cs with
  | [] => match quad_pos with O => Ok [] | _ => Raise BinasciiError end
  | ch :: cs' =>
      if Ascii.eqb ch pad_char then
        if (2 <=? quad_pos)%nat then
          if (4 <=? quad_pos + S pads)%nat then Ok []
          else a2b_base64 cs' quad_pos leftchar (S pads)
        else a2b_base64 cs' quad_pos leftchar pads
      else
        match b64_index ch with
        | None => a2b_base64 cs' quad_pos leftchar pads
        | Some v =>
            match quad_pos with
            | 0%nat => a2b_base64 cs' 1 v 0
            | 1%nat => emit (leftchar * 4 + v / 16) (a2b_base64 cs' 2 (v mod 16) 0)
            | 2%nat => emit (leftchar * 16 + v / 4) (a2b_base64 cs' 3 (v mod 4) 0)
            | _ => emit (leftchar * 64 + v) (a2b_base64 cs' 0 0 0)
            end%N
        end
  end.

Definition is_ascii_str (s : string) : bool :=
  forallb (fun c => (N_of_ascii c <? 128)%N) (list_ascii_of_string s).

(** [base64.b64decode(v)]: a [str] argument must be ASCII ([ValueError]
    otherwise); a value that is neither [str] nor bytes-like raises
    [TypeError]. *)
Definition b64decode (v : pyval) : result bytes :=
  match v with
  | PStr s =>
      if is_ascii_str s then a2b_base64 (list_ascii_of_string s) 0 0 0
      else Raise ValueError
  | _ => Raise TypeError
  end.

(** ** Sequencing fallible code *)

Definition rbind {A B} (r : result A) (k : A -> result B) : result B :=
  match r with
  | Ok a => k a
  | Raise e => Raise e
  end.

Notation "'let?' x ':=' c 'in' k" := (rbind c (fun x => k))
  (at level 10, x name, c at level 100, k at level 200).

(** ** External collaborators *)

(** Qt imaging and the json text codec.  [pixmap_save_png p] is the content
    of the byte array after [p.save(buffer, "PNG")]; [loadFromData] is a
    fresh [QPixmap] after [loadFromData(data, "PNG")] (the null pixmap on
    bytes that are no PNG: the call returns [False], it does not raise).
    [json_dump v] is the text [json.dump] writes for [v]. *)
Class Codecs : Type := {
  QPixmap : Type;
  pixmap_save_png : QPixmap -> bytes;
  loadFromData : bytes -> QPixmap;
  FileText : Type;
  json_dump : pyval -> FileText;
  json_load : FileText -> result pyval;
}.

(** What the libraries promise: PNG is lossless and [json.load] reads back
    what [json.dump] wrote. *)
Class CodecsLossless (C : Codecs) : Prop := {
  png_lossless : forall p : QPixmap, loadFromData (pixmap_save_png p) = p;
  json_load_dump : forall v : pyval, json_load (json_dump v) = Ok v;
}.

(** The host desktop: pyautogui, the screen, the OCR engine and the clock.
    [Env] is everything outside the process; every call may change it and
    every fallible call may raise. *)
Class Desktop : Type := {
  Env : Type;
  Image : Type;
  pyautogui_position : Env -> result (Z * Z) * Env;
  pyautogui_screenshot : pyval -> pyval -> pyval -> pyval -> Env -> result Image * Env;
  image_save_png : Image -> bytes;
  ocr_classification : bytes -> Env -> result string * Env;
  pyautogui_moveTo : Z -> Z -> Env -> result unit * Env;
  pyautogui_click : Env -> result unit * Env;
  time_sleep : Z -> Env -> Env;
  (** The file [temp_capture_{n}.png] of [start_capture].
      [pixmap.save(path)], given the PNG data of the pixmap: Qt reports a
      failure by its return value, which the program ignores, and then
      nothing has been written (so for a null pixmap). *)
  temp_save : nat -> bytes -> Env -> Env;
  (** [open(path, 'rb')] and [f.read()] *)
  temp_read : nat -> Env -> result bytes * Env;
  (** [if os.path.exists(path): os.remove(path)] *)
  temp_remove : nat -> Env -> result unit * Env;
}.

(** ** CaptureInfo *)

Record CaptureInfo `{Codecs} : Type := mkCaptureInfo {
  x : pyval;
  y : pyval;
  width : pyval;
  height : pyval;
  image : QPixmap;
  ocr_text : pyval;
  click_count : pyval;
}.

Section WithCodecs.
Context `{Cd : Codecs}.

(** [CaptureInfo.__init__] *)
Definition CaptureInfo_init (vx vy vw vh : pyval) (img : QPixmap) (text : pyval)
  : CaptureInfo :=
  mkCaptureInfo _ vx vy vw vh img text (PInt 1).

Definition with_click_count (cap : CaptureInfo) (v : pyval) : CaptureInfo :=
  mkCaptureInfo _ (x cap) (y cap) (width cap) (height cap) (image cap)
    (ocr_text cap) v.

Definition to_dict (self : CaptureInfo) : pyval :=
  let encoded_image := b64encode (pixmap_save_png (image self)) in
  PDict (<["x" := x self]> (<["y" := y self]> (<["width" := width self]>
        (<["height" := height self]> (<["ocr_text" := ocr_text self]>
        (<["click_count" := click_count self]>
        (<["encoded_image" := PStr encoded_image]> ∅))))))).

Definition from_dict (data : pyval) : result CaptureInfo :=
  let? encoded := py_getitem data "encoded_image" in
  let? decoded_image := b64decode encoded in
  let qpixmap := loadFromData decoded_image in
  let? vx := py_getitem data "x" in
  let? vy := py_getitem data "y" in
  let? vw := py_getitem data "width" in
  let? vh := py_getitem data "height" in
  let? text := py_getitem data "ocr_text" in
  let cap := CaptureInfo_init vx vy vw vh qpixmap text in
  let? count := py_get data "click_count" (PInt 1) in
  Ok (with_click_count cap count).

(** ** What the user and the pointer see *)

Inductive Status : Type :=
| BatchStarted
| Clicking (text : pyval) (i : Z) (count : pyval)
| Skipped (text : pyval) (current : string)
| BatchDone
| BatchError (e : exn)
| SingleStarted
| SingleClicking (text : pyval)
| SingleDone
| SingleError (e : exn)
| InfiniteStarted
| InfiniteStopped
| AllCleared.

Inductive Message : Type :=
| ExecuteFailed (e : exn)
| SelectARegionFirst
| OcrFailed (e : exn)
| ReadFailed (e : exn)
| RemoveFailed
| AlreadyRunning
| AboutToStart
| AllDeleted.

Inductive Event : Type :=
| SetStatus (s : Status)
| ProcessEvents
| WarningBox (m : Message)
| InformationBox (m : Message)
| StartDialog
| InstallEventFilter
| RemoveEventFilter
| Position
| Screenshot (vx vy vw vh : pyval)
| Classification (data : bytes)
| MoveTo (px py : Z)
| Click
| Sleep (ms : Z).

(** ** WorkerThread *)

(** Where a worker thread stands in [run]:
    [while self.keep_running: execute_all_clicks(infinite_mode=True); sleep(1)]. *)
Inductive WorkerPc : Type :=
| AtLoopHead
| InBatch (original : Z * Z) (todo : list CaptureInfo)
| Sleeping
| Finished.

Record WorkerThread : Type := mkWorkerThread {
  keep_running : bool;
  pc : WorkerPc;
}.

Definition isRunning (t : WorkerThread) : bool :=
  match pc t with Finished => false | _ => true end.

End WithCodecs.

(** ** MainWindow *)

(** The fields of [MainWindow] that the operations read or write, the file
    [saved_captures.json] ([None] when it does not exist), the desktop and
    the trace of calls issued so far, oldest first.  [threads] holds every
    [WorkerThread] object that was started; [worker_thread] refers to one
    of them by position, or is Python's [None].  The list widget
    [capture_list] mirrors [captures] row for row; only its [currentRow()]
    matters to the operations and is passed to them as [current_row]
    (-1 when nothing is selected).  Writing the file always succeeds. *)
Record MainWindow `{Codecs} `{Desktop} : Type := mkMainWindow {
  captures : list CaptureInfo;
  worker_thread : option nat;
  threads : list WorkerThread;
  json_file : option FileText;
  desktop : Env;
  trace : list Event;
}.

Section Program.
Context `{Cd : Codecs} `{Dk : Desktop}.

Definition set_captures (cs : list CaptureInfo) (w : MainWindow) : MainWindow :=
  mkMainWindow _ _ cs (worker_thread w) (threads w) (json_file w) (desktop w) (trace w).
Definition set_worker_thread (r : option nat) (w : MainWindow) : MainWindow :=
  mkMainWindow _ _ (captures w) r (threads w) (json_file w) (desktop w) (trace w).
Definition set_threads (ts : list WorkerThread) (w : MainWindow) : MainWindow :=
  mkMainWindow _ _ (captures w) (worker_thread w) ts (json_file w) (desktop w) (trace w).
Definition set_json_file (f : option FileText) (w : MainWindow) : MainWindow :=
  mkMainWindow _ _ (captures w) (worker_thread w) (threads w) f (desktop w) (trace w).
Definition set_desktop (e : Env) (w : MainWindow) : MainWindow :=
  mkMainWindow _ _ (captures w) (worker_thread w) (threads w) (json_file w) e (trace w).
Definition log (ev : Event) (w : MainWindow) : MainWindow :=
  mkMainWindow _ _ (captures w) (worker_thread w) (threads w) (json_file w) (desktop w)
    (trace w ++ [ev]).

(** *** The monad of the program: state with exceptions.  When a
    computation raises, the state reached at the raise is kept. *)
Definition M (A : Type) : Type := MainWindow -> result A * MainWindow.

Definition ret {A} (a : A) : M A := fun w => (Ok a, w).
Definition raise {A} (e : exn) : M A := fun w => (Raise e, w).
Definition bind {A B} (m : M A) (k : A -> M B) : M B :=
  fun w => match m w with
           | (Ok a, w') => k a w'
           | (Raise e, w') => (Raise e, w')
           end.
(** [try: body  except Exception as e: handler(e)] *)
Definition try_except {A} (body : M A) (handler : exn -> M A) : M A :=
  fun w => match body w with
           | (Ok a, w') => (Ok a, w')
           | (Raise e, w') => handler e w'
           end.
Definition lift {A} (r : result A) : M A := fun w => (r, w).
Definition get : M MainWindow := fun w => (Ok w, w).
Definition modify (f : MainWindow -> MainWindow) : M unit := fun w => (Ok tt, f w).
Definition when_ (b : bool) (m : M unit) : M unit := if b then m else ret tt.

Fixpoint for_each {A} (body : A -> M unit) (l : list A) : M unit :=
  match l with
  | [] => ret tt
  | a :: l' => bind (body a) (fun _ => for_each body l')
  end.

(** A call into the desktop: recorded, then answered by the desktop. *)
Definition call {A} (ev : Event) (f : Env -> result A * Env) : M A :=
  fun w => let w1 := log ev w in
           let (r, e') := f (desktop w1) in (r, set_desktop e' w1).

End Program.

Notation "'let*' x ':=' c 'in' k" := (bind c (fun x => k))
  (at level 10, x name, c at level 100, k at level 200).
Notation "c1 '>>' c2" := (bind c1 (fun _ => c2))
  (at level 100, c2 at level 200, right associativity).

Section Operations.
Context `{Cd : Codecs} `{Dk : Desktop}.

Definition setText (s : Status) : M unit := modify (log (SetStatus s)).
Definition processEvents : M unit := modify (log ProcessEvents).
Definition warning (m : Message) : M unit := modify (log (WarningBox m)).
Definition information (m : Message) : M unit := modify (log (InformationBox m)).
Definition position : M (Z * Z) := call Position pyautogui_position.
Definition screenshot (vx vy vw vh : pyval) : M Image :=
  call (Screenshot vx vy vw vh) (pyautogui_screenshot vx vy vw vh).
Definition classification (data : bytes) : M string :=
  call (Classification data) (ocr_classification data).
Definition moveTo (px py : Z) : M unit := call (MoveTo px py) (pyautogui_moveTo px py).
Definition click : M unit := call Click pyautogui_click.
Definition sleep (ms : Z) : M unit :=
  fun w => (Ok tt, set_desktop (time_sleep ms (desktop w)) (log (Sleep ms) w)).

(** The calls on the temporary file of [start_capture]; they reach neither
    the pointer nor the user and are not recorded. *)
Definition outside {A} (f : Env -> result A * Env) : M A :=
  fun w => let (r, e') := f (desktop w) in (r, set_desktop e' w).
Definition pixmap_save (n : nat) (pixmap : QPixmap) : M unit :=
  modify (fun w => set_desktop (temp_save n (pixmap_save_png pixmap) (desktop w)) w).
Definition open_read (n : nat) : M bytes := outside (temp_read n).
Definition remove_if_exists (n : nat) : M unit := outside (temp_remove n).

(** *** Persistence *)

Definition save_captures_to_json : M unit :=
  fun w =>
    let data := PList (to_dict <$> captures w) in
    (Ok tt, set_json_file (Some (json_dump data)) w).

Definition append_capture (cap : CaptureInfo) : M unit :=
  modify (fun w => set_captures (captures w ++ [cap]) w).

Definition load_captures_from_json : M unit :=
  fun w =>
    match json_file w with
    | None => (Ok tt, w)
    | Some text =>
        try_except
          (let* data_list := lift (json_load text) in
           modify (set_captures []) >>
           let* items := lift (py_iter data_list) in
           for_each (fun item =>
                       let* capture := lift (from_dict item) in
                       append_capture capture) items)
          (fun e => warning (ReadFailed e)) w
    end.

(** *** The region store *)

(** [l[i]] and [l.pop(i)] on a Python list: a negative index counts from
    the end, an index outside the list raises [IndexError]. *)
Definition list_index {A} (l : list A) (i : Z) : result nat :=
  let n := Z.of_nat (length l) in
  let j := if i <? 0 then i + n else i in
  if (0 <=? j) && (j <? n) then Ok (Z.to_nat j) else Raise IndexError.

Definition list_getitem {A} (l : list A) (i : Z) : result A :=
  let? j := list_index l i in
  match l !! j with
  | Some a => Ok a
  | None => Raise IndexError
  end.

Definition list_pop {A} (l : list A) (i : Z) : result (list A) :=
  let? j := list_index l i in Ok (delete j l).

(** [start_capture].  [info] is what the capture overlay left in
    [capture_info]: nothing when the drag was cancelled or degenerate.
    The pixmap is saved to [temp_capture_{len(self.captures)}.png] before
    the [try]; the file is read back and recognized inside it, and removed
    after it, outside the handler. *)
Definition start_capture (info : option (Z * Z * Z * Z * QPixmap)) : M unit :=
  processEvents >>
  match info with
  | None => ret tt
  | Some (ix, iy, iw, ih, pixmap) =>
      let* w := get in
      let temp_path := length (captures w) in
      pixmap_save temp_path pixmap >>
      try_except
        (let* image_bytes := open_read temp_path in
         let* text := classification image_bytes in
         let capture :=
           CaptureInfo_init (PInt ix) (PInt iy) (PInt iw) (PInt ih) pixmap (PStr text) in
         append_capture capture >>
         save_captures_to_json)
        (fun e => warning (OcrFailed e)) >>
      remove_if_exists temp_path
  end.

Definition delete_capture (current_row : Z) : M unit :=
  if 0 <=? current_row then
    let* w := get in
    let* rest := lift (list_pop (captures w) current_row) in
    modify (set_captures rest) >>
    save_captures_to_json
  else ret tt.

Definition counts : list Z := [1; 2; 3; 5; 10].

(** The value [set_click_count] assigns to [capture.click_count]. *)
Definition next_click_count (v : pyval) : pyval :=
  let current_index :=
    if py_in v counts then default O (py_index v counts) else O in
  PInt (default 0 (counts !! ((current_index + 1) mod length counts)%nat)).

Definition set_click_count (current_row : Z) : M unit :=
  if 0 <=? current_row then
    let* w := get in
    let* capture := lift (list_getitem (captures w) current_row) in
    let updated := with_click_count capture (next_click_count (click_count capture)) in
    modify (set_captures (<[Z.to_nat current_row := updated]> (captures w))) >>
    save_captures_to_json
  else ret tt.

(** *** The click executor *)

(** [s.strip()] on an attribute: only a [str] has the method. *)
Definition py_strip (v : pyval) : result string :=
  match v with
  | PStr s => Ok (strip s)
  | _ => Raise AttributeError
  end.

(** [a + b // 2] *)
Definition py_center (a b : pyval) : result Z :=
  match as_int a, as_int b with
  | Some a', Some b' => Ok (a' + b' / 2)
  | _, _ => Raise TypeError
  end.

(** The number of iterations of [for i in range(v)]. *)
Definition py_range (v : pyval) : result nat :=
  match as_int v with
  | Some n => Ok (Z.to_nat n)
  | None => Raise TypeError
  end.

(** Iterations [i], [i+1], ... of the click loop, [k] of them. *)
Fixpoint click_loop (infinite_mode : bool) (capture : CaptureInfo)
    (click_x click_y : Z) (i : Z) (k : nat) : M unit :=
  match k with
  | O => ret tt
  | S k' =>
      when_ (negb infinite_mode)
        (setText (Clicking (ocr_text capture) (i + 1) (click_count capture))) >>
      processEvents >>
      moveTo click_x click_y >>
      click >>
      sleep 200 >>
      click_loop infinite_mode capture click_x click_y (i + 1) k'
  end.

(** The body of [for capture in self.captures] in [execute_all_clicks]. *)
Definition process_capture (infinite_mode : bool) (capture : CaptureInfo) : M unit :=
  let* new_screenshot :=
    screenshot (x capture) (y capture) (width capture) (height capture) in
  let img_bytes := image_save_png new_screenshot in
  let* current_ocr_text := classification img_bytes in
  let* expected := lift (py_strip (ocr_text capture)) in
  if String.eqb (strip current_ocr_text) expected then
    let* click_x := lift (py_center (x capture) (width capture)) in
    let* click_y := lift (py_center (y capture) (height capture)) in
    let* n := lift (py_range (click_count capture)) in
    click_loop infinite_mode capture click_x click_y 0 n
  else
    when_ (negb infinite_mode)
      (setText (Skipped (ocr_text capture) current_ocr_text)) >>
    processEvents >>
    sleep 500.

(** The statements of the [try] block before, and after, the loop. *)
Definition batch_prologue (infinite_mode : bool) : M (Z * Z) :=
  when_ (negb infinite_mode) (setText BatchStarted) >>
  processEvents >>
  position.

Definition batch_epilogue (infinite_mode : bool) (original : Z * Z) : M unit :=
  moveTo (fst original) (snd original) >>
  when_ (negb infinite_mode) (setText BatchDone).

(** The [except Exception as e] block. *)
Definition batch_handler (infinite_mode : bool) (e : exn) : M unit :=
  when_ (negb infinite_mode)
    (setText (BatchError e) >> warning (ExecuteFailed e)).

Definition execute_all_clicks (infinite_mode : bool) : M unit :=
  try_except
    (let* original := batch_prologue infinite_mode in
     let* w := get in
     for_each (process_capture infinite_mode) (captures w) >>
     batch_epilogue infinite_mode original)
    (batch_handler infinite_mode).

Definition execute_single_click (current_row : Z) : M unit :=
  let* w := get in
  if (current_row <? 0) || (Z.of_nat (length (captures w)) <=? current_row) then
    warning SelectARegionFirst
  else
    let* capture := lift (list_getitem (captures w) current_row) in
    try_except
      (setText SingleStarted >>
       processEvents >>
       let* original := position in
       let* new_screenshot :=
         screenshot (x capture) (y capture) (width capture) (height capture) in
       let img_bytes := image_save_png new_screenshot in
       let* current_ocr_text := classification img_bytes in
       let* expected := lift (py_strip (ocr_text capture)) in
       (if String.eqb (strip current_ocr_text) expected then
          let* click_x := lift (py_center (x capture) (width capture)) in
          let* click_y := lift (py_center (y capture) (height capture)) in
          setText (SingleClicking (ocr_text capture)) >>
          processEvents >>
          moveTo click_x click_y >>
          click >>
          sleep 200
        else
          setText (Skipped (ocr_text capture) current_ocr_text) >>
          processEvents >>
          sleep 500) >>
       moveTo (fst original) (snd original) >>
       setText SingleDone)
      (fun e => setText (SingleError e) >> warning (ExecuteFailed e)).

(** *** The continuous runner *)

Definition set_pc (tid : nat) (p : WorkerPc) : M unit :=
  modify (fun w =>
    set_threads (alter (fun t => mkWorkerThread (keep_running t) p) tid (threads w)) w).

(** One scheduling step of the thread object at position [tid], following
    [WorkerThread.run].  A step is the test of [keep_running], the part of
    [execute_all_clicks(infinite_mode=True)] before the loop, one iteration
    of its loop, the part after the loop, or [time.sleep(1)].  The regions
    of a batch are those in the store when the batch begins. *)
Definition worker_step (tid : nat) : M unit :=
  let* w := get in
  match threads w !! tid with
  | None => ret tt
  | Some t =>
      match pc t with
      | AtLoopHead =>
          if keep_running t then
            try_except
              (let* original := batch_prologue true in
               let* w1 := get in
               set_pc tid (InBatch original (captures w1)))
              (fun e => batch_handler true e >> set_pc tid Sleeping)
          else set_pc tid Finished
      | InBatch original (capture :: todo) =>
          try_except
            (process_capture true capture >> set_pc tid (InBatch original todo))
            (fun e => batch_handler true e >> set_pc tid Sleeping)
      | InBatch original [] =>
          try_except (batch_epilogue true original) (batch_handler true) >>
          set_pc tid Sleeping
      | Sleeping => sleep 1000 >> set_pc tid AtLoopHead
      | Finished => ret tt
      end
  end.

Definition run_step (tid : nat) (w : MainWindow) : MainWindow :=
  snd (worker_step tid w).

(** [self.worker_thread and self.worker_thread.isRunning()] *)
Definition worker_running (w : MainWindow) : bool :=
  match worker_thread w with
  | Some tid => match threads w !! tid with
                | Some t => isRunning t
                | None => false
                end
  | None => false
  end.

(** [WorkerThread(self)] followed by [start()]. *)
Definition spawn_worker : M unit :=
  modify (fun w =>
    set_worker_thread (Some (length (threads w)))
      (set_threads (threads w ++ [mkWorkerThread true AtLoopHead]) w)).

Definition start_infinite_execution : M unit :=
  let* w := get in
  if worker_running w then information AlreadyRunning
  else
    modify (log StartDialog) >>
    spawn_worker >>
    modify (log InstallEventFilter) >>
    setText InfiniteStarted.

(** [WorkerThread.stop] *)
Definition thread_stop (tid : nat) (w : MainWindow) : MainWindow :=
  set_threads (alter (fun t => mkWorkerThread false (pc t)) tid (threads w)) w.

Definition thread_finished (tid : nat) (w : MainWindow) : bool :=
  match threads w !! tid with
  | Some t => negb (isRunning t)
  | None => true
  end.

(** [QThread.wait()]: the caller is blocked while the thread takes its
    steps, until [run] has returned.  [None] when [fuel] steps were not
    enough. *)
Fixpoint wait (fuel : nat) (tid : nat) (w : MainWindow) : option MainWindow :=
  if thread_finished tid w then Some w
  else match fuel with
       | O => None
       | S fuel' => wait fuel' tid (run_step tid w)
       end.

Definition stop_infinite_execution (fuel : nat) (w : MainWindow) : option MainWindow :=
  let after_join :=
    if worker_running w then
      match worker_thread w with
      | Some tid =>
          w1 ← wait fuel tid (thread_stop tid w);
          Some (set_worker_thread None w1)
      | None => Some w
      end
    else Some w in
  w2 ← after_join;
  Some (log (SetStatus InfiniteStopped) (log RemoveEventFilter w2)).

(** [clear_all_captures].  [confirmed] is the answer to the confirmation
    box and [removed] tells whether [os.remove] succeeded; either way the
    file ends up holding the empty array. *)
Definition clear_all_captures (confirmed removed : bool) (fuel : nat)
    (w : MainWindow) : option MainWindow :=
  if negb confirmed then Some w
  else
    w1 ← stop_infinite_execution fuel w;
    let w2 := log (SetStatus AllCleared) (set_captures [] w1) in
    let w3 := set_json_file (Some (json_dump (PList []))) w2 in
    Some (if removed then log (InformationBox AllDeleted) w3
          else log (WarningBox RemoveFailed) w3).

Definition closeEvent (fuel : nat) (w : MainWindow) : option MainWindow :=
  w1 ← stop_infinite_execution fuel w;
  Some (snd (save_captures_to_json w1)).

(** [MainWindow.__init__]: an empty store, no worker, then the load. *)
Definition init (file : option FileText) (e : Env) : MainWindow :=
  snd (load_captures_from_json (mkMainWindow _ _ [] None [] file e [])).

(** *** The operations as a transition system *)

Inductive Action : Type :=
| DoStartCapture (info : option (Z * Z * Z * Z * QPixmap))
| DoDeleteCapture (current_row : Z)
| DoSetClickCount (current_row : Z)
| DoExecuteAll
| DoExecuteSingle (current_row : Z)
| DoStartInfinite
| DoStopInfinite (fuel : nat)
| DoClearAll (confirmed removed : bool) (fuel : nat)
| DoClose (fuel : nat)
| DoWorkerStep (tid : nat).

Definition perform (a : Action) (w : MainWindow) : option MainWindow :=
  match a with
  | DoStartCapture info => Some (snd (start_capture info w))
  | DoDeleteCapture r => Some (snd (delete_capture r w))
  | DoSetClickCount r => Some (snd (set_click_count r w))
  | DoExecuteAll => Some (snd (execute_all_clicks false w))
  | DoExecuteSingle r => Some (snd (execute_single_click r w))
  | DoStartInfinite => Some (snd (start_infinite_execution w))
  | DoStopInfinite fuel => stop_infinite_execution fuel w
  | DoClearAll c r fuel => clear_all_captures c r fuel w
  | DoClose fuel => closeEvent fuel w
  | DoWorkerStep tid => Some (run_step tid w)
  end.

Inductive reachable : MainWindow -> Prop :=
| reachable_init file e : reachable (init file e)
| reachable_step a w w' : reachable w -> perform a w = Some w' -> reachable w'.

(** The worker threads whose [run] has not returned. *)
Definition running_threads (w : MainWindow) : list nat :=
  filter (fun tid => thread_finished tid w = false) (seq 0 (length (threads w))).

(** *** Vocabulary of the statements *)

(** The window once [self.captures] holds [cs] and has been saved. *)
Definition saved (cs : list CaptureInfo) (w : MainWindow) : MainWindow :=
  set_json_file (Some (json_dump (PList (to_dict <$> cs)))) (set_captures cs w).

(** The specification's [cycle_click_count(index)]: the window after
    [set_click_count] ran with row [i] selected. *)
Definition cycle_click_count (i : nat) (w : MainWindow) : MainWindow :=
  snd (set_click_count (Z.of_nat i) w).

(** The specification's cycle 1, 2, 3, 5, 10 and back to 1. *)
Definition next_preset (n : Z) : Z :=
  match n with
  | 1 => 2 | 2 => 3 | 3 => 5 | 5 => 10 | 10 => 1
  | _ => n
  end.

(** [w]'s desktop and trace under [w0]'s window fields. *)
Definition rebase (w0 w : MainWindow) : MainWindow :=
  mkMainWindow _ _ (captures w0) (worker_thread w0) (threads w0) (json_file w0)
    (desktop w) (trace w).

(** A computation that reads and writes the desktop and the trace only. *)
Definition world_only {A} (m : M A) : Prop :=
  forall w0 w, m (rebase w0 w) = (fst (m w), rebase w0 (snd (m w))).

(** A computation that leaves the observation [f] of the window as it
    found it, whatever its outcome. *)
Definition keeps {A B} (f : MainWindow -> B) (m : M A) : Prop :=
  forall w, f (snd (m w)) = f w.

(** The store and its file; the runner's thread objects. *)
Definition store (w : MainWindow) : list CaptureInfo * option FileText :=
  (captures w, json_file w).
Definition runner (w : MainWindow) : option nat * list WorkerThread :=
  (worker_thread w, threads w).

Definition is_pointer_event (ev : Event) : bool :=
  match ev with
  | MoveTo _ _ | Click => true
  | _ => false
  end.

Definition pointer_events (t : list Event) : list Event := filter is_pointer_event t.


(** The window after a successful capture and recognition for [c]. *)
Definition after_recognition (c : CaptureInfo) (img : Image) (e1 e2 : Env)
    (w : MainWindow) : MainWindow :=
  set_desktop e2 (log (Classification (image_save_png img))
    (set_desktop e1 (log (Screenshot (x c) (y c) (width c) (height c)) w))).

(** One use of the click executor: a batch, a single-region test, or a
    step of a worker thread inside its batches. *)
Inductive ExecutorRun : Type :=
| RunAll (infinite_mode : bool)
| RunSingle (current_row : Z)
| RunWorkerStep (tid : nat).

Definition executor_run (r : ExecutorRun) (w : MainWindow) : MainWindow :=
  match r with
  | RunAll infinite_mode => snd (execute_all_clicks infinite_mode w)
  | RunSingle current_row => snd (execute_single_click current_row w)
  | RunWorkerStep tid => run_step tid w
  end.

(** What is left of a worker's batch once [todo] are the regions still to
    be processed, followed by the [time.sleep(1)] of [run]. *)
Definition finish_batch (original : Z * Z) (todo : list CaptureInfo) : M unit :=
  try_except
    (for_each (process_capture true) todo >> batch_epilogue true original)
    (batch_handler true) >>
  sleep 1000.

(** A computation that, of the runner's fields, changes at most the
    thread object at position [tid]. *)
Definition thread_local {A} (tid : nat) (m : M A) : Prop :=
  forall w, worker_thread (snd (m w)) = worker_thread w /\
            exists g, threads (snd (m w)) = alter g tid (threads w).

(** Every thread whose [run] has not returned is the one [worker_thread]
    refers to. *)
Definition single_runner (w : MainWindow) : Prop :=
  forall tid t, threads w !! tid = Some t -> isRunning t = true ->
                worker_thread w = Some tid.

(** The window with the thread object at position [tid] replaced by [t]. *)
Definition set_thread (tid : nat) (t : WorkerThread) (w : MainWindow) : MainWindow :=
  set_threads (<[tid := t]> (threads w)) w.

End Operations.

(** ** A small model of the collaborators, for the examples

    A pixmap is its own PNG data, the file text is the document it parses
    to ([None] for text that is no JSON), screenshots carry no data and the
    OCR engine answers from a script, one entry per call (the empty string
    once the script is used up).  Moving the pointer records where it is.
    Temporary files are kept by number; saving a pixmap without data
    writes nothing, and reading a file that is not there raises
    [FileNotFoundError]. *)

Definition model_codecs : Codecs := {|
  QPixmap := bytes;
  pixmap_save_png := fun p => p;
  loadFromData := fun data => data;
  FileText := option pyval;
  json_dump := Some;
  json_load := fun text => match text with
                           | Some v => Ok v
                           | None => Raise JSONDecodeError
                           end;
|}.

Record ScriptedEnv : Type := mkScriptedEnv {
  ocr_script : list (result string);
  cursor : Z * Z;
  temp_files : gmap nat bytes;
}.

Definition model_desktop : Desktop := {|
  Env := ScriptedEnv;
  Image := unit;
  pyautogui_position := fun e => (Ok (cursor e), e);
  pyautogui_screenshot := fun _ _ _ _ e => (Ok tt, e);
  image_save_png := fun _ => [];
  ocr_classification := fun _ e =>
    match ocr_script e with
    | [] => (Ok EmptyString, e)
    | r :: rest => (r, mkScriptedEnv rest (cursor e) (temp_files e))
    end;
  pyautogui_moveTo := fun px py e =>
    (Ok tt, mkScriptedEnv (ocr_script e) (px, py) (temp_files e));
  pyautogui_click := fun e => (Ok tt, e);
  time_sleep := fun _ e => e;
  temp_save := fun n data e =>
    match data with
    | [] => e
    | _ => mkScriptedEnv (ocr_script e) (cursor e) (<[n := data]> (temp_files e))
    end;
  temp_read := fun n e =>
    match temp_files e !! n with
    | Some data => (Ok data, e)
    | None => (Raise FileNotFoundError, e)
    end;
  temp_remove := fun n e =>
    (Ok tt, mkScriptedEnv (ocr_script e) (cursor e) (delete n (temp_files e)));
|}.

Module Model.
#[export] Existing Instance model_codecs.
#[export] Existing Instance model_desktop.

(** The region of the scenario in section 8 of the specification. *)
Definition go : CaptureInfo :=
  mkCaptureInfo _ (PInt 10) (PInt 10) (PInt 50) (PInt 20) [] (PStr "Go") (PInt 2).

Definition window (cs : list CaptureInfo) (script : list (result string)) : MainWindow :=
  mkMainWindow _ _ cs None [] None (mkScriptedEnv script (0, 0) ∅) [].
(** A record written before [click_count] existed. *)
Definition legacy_record : gmap string pyval :=
  <["x" := PInt 10]> (<["y" := PInt 10]> (<["width" := PInt 50]>
  (<["height" := PInt 20]> (<["ocr_text" := PStr "Go"]>
  (<["encoded_image" := PStr "R28="]> ∅))))).

(** A region whose [click_count] was edited in the file to 7. *)
Definition edited : CaptureInfo :=
  mkCaptureInfo _ (PInt 10) (PInt 10) (PInt 50) (PInt 20) [] (PStr "Go") (PInt 7).
(** A desktop whose OCR engine follows [script], pointer at the origin. *)
Definition env (script : list (result string)) : Env := mkScriptedEnv script (0, 0) ∅.

(** A file whose second record lacks every field. *)
Definition broken_file : option pyval := Some (PList [to_dict go; PDict ∅]).
(** A batch that will stop at its second region: recognition raises. *)
Definition failing : MainWindow :=
  window [go; edited] [Ok "Go"%string; Raise (ExternalError 1)].

(** The continuous runner in the middle of a batch, [go] still to do. *)
Definition in_flight : MainWindow :=
  mkMainWindow _ _ [go] (Some 0%nat) [mkWorkerThread true (InBatch (0, 0) [go])]
    None (env [Ok "Go"%string]) [].
End Model.

Import Model.

(** ** Further parts of the program *)

(** *** ScreenCaptureWidget *)

(** [QPixmap.copy(x, y, width, height)]. *)
Class Cropping (C : Codecs) : Type := {
  pixmap_copy : QPixmap -> Z -> Z -> Z -> Z -> QPixmap;
}.

Inductive MouseButton : Type := LeftButton | RightButton | MiddleButton.

Inductive OverlayEvent : Type :=
| MousePress (button : MouseButton) (pos : Z * Z)
| MouseMove (pos : Z * Z)
| MouseRelease (button : MouseButton)
| KeyPress (is_escape : bool).

(** The attributes of the overlay; a [QPoint] is a pair of integers and
    [capture_info] is [None] as long as the attribute does not exist. *)
Record ScreenCaptureWidget `{Codecs} : Type := mkScreenCaptureWidget {
  original_screenshot : QPixmap;
  begin : Z * Z;
  end_ : Z * Z;
  is_drawing : bool;
  capture_info : option (Z * Z * Z * Z * QPixmap);
  isVisible : bool;
}.

Section Overlay.
Context `{Cd : Codecs} `{Cr : !Cropping Cd}.

(** [ScreenCaptureWidget()] followed by [show()]; [screen] is the
    snapshot taken by [grabWindow(0)]. *)
Definition shown (screen : QPixmap) : ScreenCaptureWidget :=
  mkScreenCaptureWidget _ screen (0, 0) (0, 0) false None true.

(** [bool(p)] for a [QPoint]: false exactly for the null point (0, 0). *)
Definition qpoint_bool (p : Z * Z) : bool := negb ((fst p =? 0) && (snd p =? 0)).

Definition is_left (b : MouseButton) : bool :=
  match b with LeftButton => true | _ => false end.

Definition mousePressEvent (button : MouseButton) (pos : Z * Z)
    (s : ScreenCaptureWidget) : ScreenCaptureWidget :=
  if is_left button then
    mkScreenCaptureWidget _ (original_screenshot s) pos pos true
      (capture_info s) (isVisible s)
  else s.

Definition mouseMoveEvent (pos : Z * Z) (s : ScreenCaptureWidget) : ScreenCaptureWidget :=
  if is_drawing s then
    mkScreenCaptureWidget _ (original_screenshot s) (begin s) pos true
      (capture_info s) (isVisible s)
  else s.

Definition mouseReleaseEvent (button : MouseButton) (s : ScreenCaptureWidget)
  : ScreenCaptureWidget :=
  if is_left button && is_drawing s then
    let s1 := mkScreenCaptureWidget _ (original_screenshot s) (begin s) (end_ s) false
                (capture_info s) (isVisible s) in
    if qpoint_bool (begin s) && qpoint_bool (end_ s) then
      let x1 := Z.min (fst (begin s)) (fst (end_ s)) in
      let y1 := Z.min (snd (begin s)) (snd (end_ s)) in
      let x2 := Z.max (fst (begin s)) (fst (end_ s)) in
      let y2 := Z.max (snd (begin s)) (snd (end_ s)) in
      if (0 <? x2 - x1) && (0 <? y2 - y1) then
        let screenshot := pixmap_copy (original_screenshot s) x1 y1 (x2 - x1) (y2 - y1) in
        mkScreenCaptureWidget _ (original_screenshot s) (begin s) (end_ s) false
          (Some (x1, y1, x2 - x1, y2 - y1, screenshot)) false
      else s1
    else s1
  else s.

Definition keyPressEvent (is_escape : bool) (s : ScreenCaptureWidget) : ScreenCaptureWidget :=
  if is_escape then
    mkScreenCaptureWidget _ (original_screenshot s) (begin s) (end_ s) (is_drawing s)
      (capture_info s) false
  else s.

(** An event reaches the widget only while it is visible. *)
Definition overlay_event (ev : OverlayEvent) (s : ScreenCaptureWidget) : ScreenCaptureWidget :=
  if isVisible s then
    match ev with
    | MousePress button pos => mousePressEvent button pos s
    | MouseMove pos => mouseMoveEvent pos s
    | MouseRelease button => mouseReleaseEvent button s
    | KeyPress is_escape => keyPressEvent is_escape s
    end
  else s.

Definition overlay_run (evs : list OverlayEvent) (s : ScreenCaptureWidget)
  : ScreenCaptureWidget :=
  foldl (fun s0 ev => overlay_event ev s0) s evs.

(** What the overlay has yielded is a rectangle of positive size cut from
    the snapshot, and the overlay is then closed. *)
Definition yield_ok (s : ScreenCaptureWidget) : Prop :=
  match capture_info s with
  | Some (x1, y1, w, h, img) =>
      0 < w /\ 0 < h /\ img = pixmap_copy (original_screenshot s) x1 y1 w h /\
      isVisible s = false
  | None => True
  end.

End Overlay.

Section FurtherOperations.
Context `{Cd : Codecs} `{Dk : Desktop}.

(** *** AutoClicker *)

(** [AutoClicker.click] of [auto_clicker.py].  The value is the exception
    whose message was printed, if any; the method itself returns nothing. *)
Definition AutoClicker_click (px py : Z) : M (option exn) :=
  try_except
    (moveTo px py >> click >> ret None)
    (fun e => ret (Some e)).

(** *** One iteration of [WorkerThread.run] *)

(** The thread at [tid] is about to test [keep_running], or is gone. *)
Definition at_loop_head (tid : nat) (w : MainWindow) : bool :=
  match threads w !! tid with
  | Some t => match pc t with AtLoopHead | Finished => true | _ => false end
  | None => true
  end.

(** The steps of thread [tid] up to its next arrival at the head of the
    loop of [run]; [None] when [fuel] steps were not enough. *)
Fixpoint run_iteration (fuel : nat) (tid : nat) (w : MainWindow) : option MainWindow :=
  match fuel with
  | O => None
  | S fuel' =>
      let w1 := run_step tid w in
      if at_loop_head tid w1 then Some w1 else run_iteration fuel' tid w1
  end.

(** *** More vocabulary of the statements *)

(** A computation that only appends to the trace, and only events that
    satisfy [P]. *)
Definition emits {A} (P : Event -> bool) (m : M A) : Prop :=
  forall w, exists new, trace (snd (m w)) = trace w ++ new /\ forallb P new = true.

(** Events that reach the user: the status label and the dialogs. *)
Definition is_user_event (ev : Event) : bool :=
  match ev with
  | SetStatus _ | WarningBox _ | InformationBox _ | StartDialog => true
  | _ => false
  end.

Definition is_silent (ev : Event) : bool := negb (is_user_event ev).

Definition not_pointer (ev : Event) : bool := negb (is_pointer_event ev).

(** The values on which Python's [+], [//] and [range] raise [TypeError]:
    [None], a [str], a [list] and a [dict]. *)
Definition no_number (v : pyval) : bool :=
  match v with
  | PNone | PStr _ | PList _ | PDict _ => true
  | PBool _ | PInt _ => false
  end.

(** The file holds exactly the store. *)
Definition synced (w : MainWindow) : Prop :=
  json_file w = Some (json_dump (PList (to_dict <$> captures w))).

(** The keys that [from_dict] reads with [data[...]] after
    [encoded_image], in the order of the source; all the keys it reads. *)
Definition required_keys : list string :=
  ["x"; "y"; "width"; "height"; "ocr_text"]%string.

Definition record_keys : list string :=
  ("encoded_image" :: required_keys ++ ["click_count"])%string.

(** A region as the program itself makes it: integer bounds, a string
    text and a preset click count. *)
Definition program_made (c : CaptureInfo) : Prop :=
  exists X Y W H t n,
    x c = PInt X /\ y c = PInt Y /\ width c = PInt W /\ height c = PInt H /\
    ocr_text c = PStr t /\ click_count c = PInt n /\ n ∈ counts.

End FurtherOperations.

(** A string of whitespace only. *)
Fixpoint is_blank (s : string) : bool :=
  match s with
  | EmptyString => true
  | String c s' => is_space c && is_blank s'
  end.

(** *** More of the model, for the examples *)

Module Model2.

(** Cropping keeps the pixel data as it is. *)
#[export] Instance model_cropping : Cropping model_codecs := {|
  pixmap_copy := fun p _ _ _ _ => p;
|}.

(** A desktop without a pointer: every pyautogui call raises. *)
Definition headless_desktop : Desktop := {|
  Env := unit;
  Image := unit;
  pyautogui_position := fun e => (Raise (ExternalError 2), e);
  pyautogui_screenshot := fun _ _ _ _ e => (Raise (ExternalError 2), e);
  image_save_png := fun _ => [];
  ocr_classification := fun _ e => (Ok EmptyString, e);
  pyautogui_moveTo := fun _ _ e => (Raise (ExternalError 2), e);
  pyautogui_click := fun e => (Raise (ExternalError 2), e);
  time_sleep := fun _ e => e;
  temp_save := fun _ _ e => e;
  temp_read := fun _ e => (Raise FileNotFoundError, e);
  temp_remove := fun _ e => (Ok tt, e);
|}.

Definition headless_window : @MainWindow model_codecs headless_desktop :=
  @mkMainWindow model_codecs headless_desktop [go] None [] None tt [].

(** A null pixmap, and a snapshot of the screen with some pixel data. *)
Definition blank_screen : @QPixmap model_codecs := ([] : bytes).
Definition snapshot : @QPixmap model_codecs := (["P"; "N"; "G"]%char : bytes).

(** A region whose click count was edited to 0. *)
Definition zero_clicks : CaptureInfo :=
  mkCaptureInfo _ (PInt 10) (PInt 10) (PInt 50) (PInt 20) [] (PStr "Go") (PInt 0).

(** The worker about to start a batch over [go]. *)
Definition at_head : MainWindow :=
  mkMainWindow _ _ [go] (Some 0%nat) [mkWorkerThread true AtLoopHead]
    None (env [Ok "Go"%string]) [].

(** A drag from (40, 30) up and left to (10, 10). *)
Definition drag_up_left : list OverlayEvent :=
  [MousePress LeftButton (40, 30); MouseMove (25, 20); MouseMove (10, 10);
   MouseRelease LeftButton].

End Model2.

Import Model2.

(** * Proofs *)

(** ** base64 *)

Lemma b64_index_char (n : N) :
  (n < 64)%N -> b64_index (b64_char n) = Some n.
Proof.
  intros Hn.
  assert (Hk : exists k, (k < 64)%nat /\ n = N.of_nat k).
  { exists (N.to_nat n). split; lia. }
  destruct Hk as (k & Hk & ->).
  do 64 (destruct k as [|k]; [reflexivity|]). lia.
Qed.

Lemma b64_char_not_pad (n : N) :
  (n < 64)%N -> Ascii.eqb (b64_char n) pad_char = false.
Proof.
  intros Hn.
  assert (Hk : exists k, (k < 64)%nat /\ n = N.of_nat k).
  { exists (N.to_nat n). split; lia. }
  destruct Hk as (k & Hk & ->).
  do 64 (destruct k as [|k]; [reflexivity|]). lia.
Qed.

Ltac n_divmod :=
  zify; Z.to_euclidean_division_equations; lia.

Lemma sextet_bounds (a b c : N) :
  (a < 256 -> b < 256 -> c < 256 ->
   a / 4 < 64 /\ a mod 4 * 16 + b / 16 < 64 /\
   b mod 16 * 4 + c / 64 < 64 /\ c mod 64 < 64)%N.
Proof. intros. repeat split; n_divmod. Qed.

Lemma sextet_join (a b c : N) :
  (a < 256 -> b < 256 -> c < 256 ->
   a / 4 * 4 + (a mod 4 * 16 + b / 16) / 16 = a /\
   (a mod 4 * 16 + b / 16) mod 16 * 16 + (b mod 16 * 4 + c / 64) / 4 = b /\
   (b mod 16 * 4 + c / 64) mod 4 * 64 + c mod 64 = c)%N.
Proof. intros. repeat split; n_divmod. Qed.

Lemma list_ind3 {A} (P : list A -> Prop) :
  P [] -> (forall a, P [a]) -> (forall a b, P [a; b]) ->
  (forall a b c rest, P rest -> P (a :: b :: c :: rest)) ->
  forall l, P l.
Proof.
  intros H0 H1 H2 H3 l.
  assert (H : P l /\ (forall a, P (a :: l)) /\ (forall a b, P (a :: b :: l))).
  { induction l as [|x l (IH0 & IH1 & IH2)]; [by auto|].
    split; [apply IH1|]. split; [intros a; apply IH2|].
    intros a b. by apply H3. }
  apply H.
Qed.

Lemma a2b_step (s : N) (cs : list ascii) (quad_pos : nat) (leftchar : N) (pads : nat) :
  (s < 64)%N ->
  a2b_base64 (b64_char s :: cs) quad_pos leftchar pads =
  match quad_pos with
  | 0%nat => a2b_base64 cs 1 s 0
  | 1%nat => emit (leftchar * 4 + s / 16) (a2b_base64 cs 2 (s mod 16) 0)
  | 2%nat => emit (leftchar * 16 + s / 4) (a2b_base64 cs 3 (s mod 4) 0)
  | _ => emit (leftchar * 64 + s) (a2b_base64 cs 0 0 0)
  end%N.
Proof.
  intros Hs. cbn [a2b_base64].
  by rewrite (b64_char_not_pad s Hs), (b64_index_char s Hs).
Qed.

Lemma b64_roundtrip_bytes (bs : bytes) :
  a2b_base64 (list_ascii_of_string (b64encode bs)) 0 0 0 = Ok bs.
Proof.
  induction bs as [|a|a b|a b c rest IH] using list_ind3.
  - reflexivity.
  - pose proof (N_ascii_bounded a) as Ha.
    destruct (sextet_bounds (N_of_ascii a) 0 0) as (B1 & B2 & _); [lia..|].
    destruct (sextet_join (N_of_ascii a) 0 0) as (J1 & _); [lia..|].
    cbn [b64encode list_ascii_of_string].
    replace (N_of_ascii a mod 4 * 16)%N with (N_of_ascii a mod 4 * 16 + 0 / 16)%N
      by (change (0 / 16)%N with 0%N; lia).
    rewrite !a2b_step by assumption.
    cbn. rewrite J1. by rewrite ascii_N_embedding.
  - pose proof (N_ascii_bounded a) as Ha. pose proof (N_ascii_bounded b) as Hb.
    destruct (sextet_bounds (N_of_ascii a) (N_of_ascii b) 0) as (B1 & B2 & B3 & _); [lia..|].
    destruct (sextet_join (N_of_ascii a) (N_of_ascii b) 0) as (J1 & J2 & _); [lia..|].
    cbn [b64encode list_ascii_of_string].
    replace (N_of_ascii b mod 16 * 4)%N with (N_of_ascii b mod 16 * 4 + 0 / 64)%N
      by (change (0 / 64)%N with 0%N; lia).
    rewrite !a2b_step by assumption.
    cbn. rewrite J1, J2. by rewrite !ascii_N_embedding.
  - pose proof (N_ascii_bounded a) as Ha. pose proof (N_ascii_bounded b) as Hb.
    pose proof (N_ascii_bounded c) as Hc.
    destruct (sextet_bounds (N_of_ascii a) (N_of_ascii b) (N_of_ascii c))
      as (B1 & B2 & B3 & B4); [lia..|].
    destruct (sextet_join (N_of_ascii a) (N_of_ascii b) (N_of_ascii c))
      as (J1 & J2 & J3); [lia..|].
    cbn [b64encode list_ascii_of_string].
    rewrite !a2b_step by assumption.
    rewrite IH. cbn [emit]. rewrite J1, J2, J3. by rewrite !ascii_N_embedding.
Qed.

Example b64encode_Go : b64encode ["G"%char; "o"%char] = "R28="%string.
Proof. reflexivity. Qed.

Example b64decode_skips_blanks :
  b64decode (PStr "R2 8= ") = b64decode (PStr "R28=").
Proof. reflexivity. Qed.

Example b64decode_truncated : b64decode (PStr "R28") = Raise BinasciiError.
Proof. reflexivity. Qed.

Example strip_Go :
  strip (String "009"%char (" Go " ++ String "010"%char EmptyString)) = "Go"%string.
Proof. reflexivity. Qed.

Example strip_inner_blank : strip " Go on " = "Go on"%string.
Proof. reflexivity. Qed.

(** ** The monad *)

Section MonadFacts.
Context `{Cd : Codecs} `{Dk : Desktop}.

Lemma bind_ok {A B} (m : M A) (k : A -> M B) w a w' :
  m w = (Ok a, w') -> bind m k w = k a w'.
Proof. unfold bind. by intros ->. Qed.

Lemma bind_raise {A B} (m : M A) (k : A -> M B) w e w' :
  m w = (Raise e, w') -> bind m k w = (Raise e, w').
Proof. unfold bind. by intros ->. Qed.

Lemma for_each_app {A} (body : A -> M unit) (l1 l2 : list A) w w1 :
  for_each body l1 w = (Ok tt, w1) ->
  for_each body (l1 ++ l2) w = for_each body l2 w1.
Proof.
  revert w. induction l1 as [|a l1 IH]; intros w; cbn.
  - unfold ret. by intros [= ->].
  - unfold bind. destruct (body a w) as [[[]|e] w2]; [|done]. apply IH.
Qed.

End MonadFacts.

(** ** The region store *)

Section StoreFacts.
Context `{Cd : Codecs} `{Dk : Desktop}.

Lemma with_click_count_same (c : CaptureInfo) :
  with_click_count c (click_count c) = c.
Proof. by destruct c. Qed.

Lemma list_index_in_range {A} (l : list A) (i : Z) :
  0 <= i < Z.of_nat (length l) -> list_index l i = Ok (Z.to_nat i).
Proof.
  intros Hi. unfold list_index.
  destruct (Z.ltb_spec i 0); [lia|].
  destruct (Z.leb_spec 0 i); [|lia].
  destruct (Z.ltb_spec i (Z.of_nat (length l))); [done|lia].
Qed.

Lemma list_index_too_large {A} (l : list A) (i : Z) :
  Z.of_nat (length l) <= i -> list_index l i = Raise IndexError.
Proof.
  intros Hi. unfold list_index.
  destruct (Z.ltb_spec i 0); [lia|].
  destruct (Z.leb_spec 0 i); [|lia].
  destruct (Z.ltb_spec i (Z.of_nat (length l))); [lia|done].
Qed.

End StoreFacts.

(** ** [from_dict] and [to_dict] *)

Lemma b64_char_ascii (n : N) :
  (n < 64)%N -> (N_of_ascii (b64_char n) <? 128)%N = true.
Proof.
  intros Hn.
  assert (Hk : exists k, (k < 64)%nat /\ n = N.of_nat k).
  { exists (N.to_nat n). split; lia. }
  destruct Hk as (k & Hk & ->).
  do 64 (destruct k as [|k]; [reflexivity|]). lia.
Qed.

Lemma b64encode_ascii (bs : bytes) : is_ascii_str (b64encode bs) = true.
Proof.
  unfold is_ascii_str.
  induction bs as [|a|a b|a b c rest IH] using list_ind3.
  - reflexivity.
  - pose proof (N_ascii_bounded a) as Ha.
    destruct (sextet_bounds (N_of_ascii a) 0 0) as (B1 & B2 & _); [lia..|].
    change (0 / 16)%N with 0%N in B2. rewrite N.add_0_r in B2.
    cbn [b64encode list_ascii_of_string forallb].
    by rewrite !b64_char_ascii.
  - pose proof (N_ascii_bounded a) as Ha. pose proof (N_ascii_bounded b) as Hb.
    destruct (sextet_bounds (N_of_ascii a) (N_of_ascii b) 0) as (B1 & B2 & B3 & _); [lia..|].
    change (0 / 64)%N with 0%N in B3. rewrite N.add_0_r in B3.
    cbn [b64encode list_ascii_of_string forallb].
    by rewrite !b64_char_ascii.
  - pose proof (N_ascii_bounded a) as Ha. pose proof (N_ascii_bounded b) as Hb.
    pose proof (N_ascii_bounded c) as Hc.
    destruct (sextet_bounds (N_of_ascii a) (N_of_ascii b) (N_of_ascii c))
      as (B1 & B2 & B3 & B4); [lia..|].
    cbn [b64encode list_ascii_of_string forallb].
    rewrite !b64_char_ascii by assumption. exact IH.
Qed.

Lemma b64decode_b64encode (bs : bytes) : b64decode (PStr (b64encode bs)) = Ok bs.
Proof. unfold b64decode. by rewrite b64encode_ascii, b64_roundtrip_bytes. Qed.

Section FromDict.
Context `{Cd : Codecs}.

(** Claim C9: a persisted record without a [click_count] field is rebuilt
    as a region whose [click_count] is 1, every other field being the
    record's (the image is the decoded [encoded_image]). *)
Theorem from_dict_default_click_count (d : gmap string pyval)
    (encoded vx vy vw vh text : pyval) (decoded : bytes) :
  d !! "click_count" = None ->
  d !! "encoded_image" = Some encoded ->
  b64decode encoded = Ok decoded ->
  d !! "x" = Some vx -> d !! "y" = Some vy ->
  d !! "width" = Some vw -> d !! "height" = Some vh ->
  d !! "ocr_text" = Some text ->
  from_dict (PDict d) =
    Ok (mkCaptureInfo _ vx vy vw vh (loadFromData decoded) text (PInt 1)).
Proof.
  intros Hc He Hd Hx Hy Hw Hh Ht.
  unfold from_dict, py_getitem, py_get.
  rewrite He. cbn [rbind]. rewrite Hd. cbn [rbind].
  by rewrite Hx, Hy, Hw, Hh, Ht, Hc.
Qed.

Lemma from_dict_to_dict `{!CodecsLossless Cd} (c : CaptureInfo) :
  from_dict (to_dict c) = Ok c.
Proof.
  unfold from_dict, to_dict, py_getitem, py_get.
  repeat first [rewrite lookup_insert_eq | rewrite lookup_insert_ne by done].
  cbn [rbind]. rewrite b64decode_b64encode. cbn [rbind default].
  rewrite png_lossless. by destruct c.
Qed.

Lemma Forall2_from_dict_to_dict `{!CodecsLossless Cd} (cs : list CaptureInfo) :
  Forall2 (fun item cap => from_dict item = Ok cap) (to_dict <$> cs) cs.
Proof. induction cs; constructor; [apply from_dict_to_dict|done]. Qed.

End FromDict.

Lemma from_dict_default_click_count_witness :
  @from_dict model_codecs (PDict Model.legacy_record) =
    Ok (mkCaptureInfo model_codecs (PInt 10) (PInt 10) (PInt 50) (PInt 20)
          (@loadFromData model_codecs ["G"%char; "o"%char]) (PStr "Go") (PInt 1)).
Proof.
  apply (from_dict_default_click_count Model.legacy_record (PStr "R28=")
           (PInt 10) (PInt 10) (PInt 50) (PInt 20) (PStr "Go") ["G"%char; "o"%char]);
    vm_compute; reflexivity.
Defined.

(** ** Cycling the click count *)

Section ClickCount.
Context `{Cd : Codecs} `{Dk : Desktop}.

Lemma list_getitem_lookup {A} (l : list A) (i : nat) (a : A) :
  l !! i = Some a -> list_getitem l (Z.of_nat i) = Ok a.
Proof.
  intros Hi. unfold list_getitem.
  rewrite list_index_in_range.
  - cbn. by rewrite Nat2Z.id, Hi.
  - apply lookup_lt_Some in Hi. lia.
Qed.

Lemma set_click_count_at w (i : nat) c :
  captures w !! i = Some c ->
  set_click_count (Z.of_nat i) w =
    (Ok tt, saved (<[i := with_click_count c (next_click_count (click_count c))]>
                     (captures w)) w).
Proof.
  intros Hi. unfold set_click_count.
  destruct (Z.leb_spec 0 (Z.of_nat i)); [|lia].
  unfold bind, get, lift. rewrite (list_getitem_lookup _ _ _ Hi).
  cbn. by rewrite Nat2Z.id.
Qed.

Lemma elem_of_counts (n : Z) :
  n ∈ counts <-> n = 1 \/ n = 2 \/ n = 3 \/ n = 5 \/ n = 10.
Proof. unfold counts. rewrite !elem_of_cons, elem_of_nil. tauto. Qed.

Lemma next_click_count_off_preset (v : pyval) :
  py_in v counts = false -> next_click_count v = PInt 2.
Proof. unfold next_click_count. by intros ->. Qed.

Lemma cycle_click_count_iter w (i : nat) c (k : nat) :
  captures w !! i = Some c ->
  captures (Nat.iter k (cycle_click_count i) w) =
    <[i := with_click_count c (Nat.iter k next_click_count (click_count c))]> (captures w).
Proof.
  intros Hi. induction k as [|k IH].
  - change (captures w = <[i := with_click_count c (click_count c)]> (captures w)).
    by rewrite with_click_count_same, list_insert_id.
  - rewrite !Nat.iter_succ. unfold cycle_click_count at 1.
    assert (Hk : captures (Nat.iter k (cycle_click_count i) w) !! i =
                 Some (with_click_count c (Nat.iter k next_click_count (click_count c)))).
    { rewrite IH. apply list_lookup_insert_eq. by apply lookup_lt_Some in Hi. }
    rewrite (set_click_count_at _ _ _ Hk). cbn.
    by rewrite IH, list_insert_insert_eq.
Qed.

(** Claim C4: on a region whose [click_count] is one of 1, 2, 3, 5, 10,
    [set_click_count] stores the next value of the cycle 1, 2, 3, 5, 10, 1
    in the [click_count] of that region, leaving its other fields and the
    other regions as they are (and saves); that successor map is
    one-to-one and onto on the presets; five applications give back the
    original store. *)
Theorem cycle_click_count_presets w (i : nat) c (n : Z) :
  captures w !! i = Some c -> click_count c = PInt n -> n ∈ counts ->
  next_preset n ∈ counts /\
  set_click_count (Z.of_nat i) w =
    (Ok tt,
     saved (<[i := mkCaptureInfo _ (x c) (y c) (width c) (height c) (image c)
                     (ocr_text c) (PInt (next_preset n))]> (captures w)) w) /\
  click_count <$> captures (cycle_click_count i w) !! i = Some (PInt (next_preset n)) /\
  (forall a b : Z, a ∈ counts -> b ∈ counts -> next_preset a = next_preset b -> a = b) /\
  (forall b : Z, b ∈ counts -> exists a, a ∈ counts /\ next_preset a = b) /\
  captures (Nat.iter 5 (cycle_click_count i) w) = captures w.
Proof.
  intros Hi Hc Hn.
  assert (Hnext : forall a, a ∈ counts -> next_click_count (PInt a) = PInt (next_preset a)).
  { intros a Ha. apply elem_of_counts in Ha.
    destruct Ha as [->|[->|[->|[->| ->]]]]; reflexivity. }
  split; [|split; [|split; [|split; [|split]]]].
  - apply elem_of_counts in Hn. apply elem_of_counts.
    destruct Hn as [->|[->|[->|[->| ->]]]]; cbn; tauto.
  - rewrite (set_click_count_at _ _ _ Hi), Hc. by rewrite Hnext.
  - unfold cycle_click_count. rewrite (set_click_count_at _ _ _ Hi), Hc, Hnext by done.
    cbn. rewrite list_lookup_insert_eq by (by apply lookup_lt_Some in Hi). done.
  - intros a b Ha Hb. apply elem_of_counts in Ha, Hb.
    destruct Ha as [->|[->|[->|[->| ->]]]], Hb as [->|[->|[->|[->| ->]]]];
      cbn; congruence.
  - intros b Hb. apply elem_of_counts in Hb.
    destruct Hb as [->|[->|[->|[->| ->]]]].
    + exists 10. split; [apply elem_of_counts; tauto|done].
    + exists 1. split; [apply elem_of_counts; tauto|done].
    + exists 2. split; [apply elem_of_counts; tauto|done].
    + exists 3. split; [apply elem_of_counts; tauto|done].
    + exists 5. split; [apply elem_of_counts; tauto|done].
  - rewrite (cycle_click_count_iter _ _ _ _ Hi), Hc.
    assert (Nat.iter 5 next_click_count (PInt n) = PInt n) as ->.
    { apply elem_of_counts in Hn.
      destruct Hn as [->|[->|[->|[->| ->]]]]; reflexivity. }
    rewrite <- Hc, with_click_count_same. by apply list_insert_id.
Qed.

(** Claim C10: on a region whose [click_count] is not among the presets
    (by Python's [in]), [set_click_count] stores 2 in the [click_count] of
    that region, whatever it held, leaving its other fields and the other
    regions as they are (and saves): the position falls back to 0, the
    first preset's, and is then advanced. *)
Theorem set_click_count_off_preset w (i : nat) c :
  captures w !! i = Some c -> py_in (click_count c) counts = false ->
  next_click_count (click_count c) = PInt 2 /\
  set_click_count (Z.of_nat i) w =
    (Ok tt,
     saved (<[i := mkCaptureInfo _ (x c) (y c) (width c) (height c) (image c)
                     (ocr_text c) (PInt 2)]> (captures w)) w) /\
  click_count <$> captures (snd (set_click_count (Z.of_nat i) w)) !! i = Some (PInt 2).
Proof.
  intros Hi Hc. split; [by apply next_click_count_off_preset|].
  rewrite (set_click_count_at _ _ _ Hi), next_click_count_off_preset by done.
  split; [done|]. cbn.
  rewrite list_lookup_insert_eq by (by apply lookup_lt_Some in Hi). done.
Qed.

End ClickCount.

Lemma cycle_click_count_presets_witness :
  set_click_count 0 (Model.window [Model.go] []) =
    (Ok tt,
     saved [mkCaptureInfo _ (PInt 10) (PInt 10) (PInt 50) (PInt 20) [] (PStr "Go")
              (PInt 3)] (Model.window [Model.go] [])) /\
  click_count <$> captures (cycle_click_count 0 (Model.window [Model.go] [])) !! 0%nat =
    Some (PInt 3) /\
  captures (Nat.iter 5 (cycle_click_count 0) (Model.window [Model.go] [])) = [Model.go].
Proof.
  destruct (cycle_click_count_presets (Model.window [Model.go] []) 0%nat Model.go 2)
    as (_ & Hset & Hcount & _ & _ & Hfive);
    [reflexivity|reflexivity|apply elem_of_counts; tauto|].
  split; [exact Hset|]. split; [exact Hcount|exact Hfive].
Defined.

Lemma set_click_count_off_preset_witness :
  set_click_count 0 (Model.window [Model.edited] []) =
    (Ok tt,
     saved [mkCaptureInfo _ (PInt 10) (PInt 10) (PInt 50) (PInt 20) [] (PStr "Go")
              (PInt 2)] (Model.window [Model.edited] [])) /\
  click_count <$> captures (snd (set_click_count 0 (Model.window [Model.edited] [])))
                  !! 0%nat = Some (PInt 2).
Proof.
  destruct (set_click_count_off_preset (Model.window [Model.edited] []) 0%nat
              Model.edited) as (_ & Hset & Hcount); [reflexivity|reflexivity|].
  split; [exact Hset|exact Hcount].
Defined.

(** ** Persistence *)

Section Persistence.
Context `{Cd : Codecs} `{Dk : Desktop}.

Lemma set_captures_same w : set_captures (captures w) w = w.
Proof. by destruct w. Qed.

Lemma load_items_ok (items : list pyval) (caps : list CaptureInfo) w :
  Forall2 (fun item cap => from_dict item = Ok cap) items caps ->
  for_each (fun item => let* capture := lift (from_dict item) in append_capture capture)
    items w = (Ok tt, set_captures (captures w ++ caps) w).
Proof.
  intros H. revert w. induction H as [|item cap items caps Hi _ IH]; intros w.
  - cbn. unfold ret. by rewrite app_nil_r, set_captures_same.
  - cbn [for_each]. unfold bind at 1. unfold bind at 1, lift. rewrite Hi.
    unfold append_capture, modify. rewrite IH. cbn. by rewrite <- app_assoc.
Qed.

Lemma load_items_fail (good : list pyval) (caps : list CaptureInfo) bad rest err w :
  Forall2 (fun item cap => from_dict item = Ok cap) good caps ->
  from_dict bad = Raise err ->
  for_each (fun item => let* capture := lift (from_dict item) in append_capture capture)
    (good ++ bad :: rest) w = (Raise err, set_captures (captures w ++ caps) w).
Proof.
  intros Hg Hb. rewrite (for_each_app _ _ _ _ _ (load_items_ok _ _ w Hg)).
  cbn [for_each]. unfold bind at 1. unfold bind at 1, lift. by rewrite Hb.
Qed.

Lemma load_missing w :
  json_file w = None -> load_captures_from_json w = (Ok tt, w).
Proof. unfold load_captures_from_json. by intros ->. Qed.

Lemma load_unparsable w text err :
  json_file w = Some text -> json_load text = Raise err ->
  load_captures_from_json w = (Ok tt, log (WarningBox (ReadFailed err)) w).
Proof.
  intros Hf Hl. unfold load_captures_from_json. rewrite Hf.
  unfold try_except, bind at 1, lift. by rewrite Hl.
Qed.

Lemma load_list_ok w text items caps :
  json_file w = Some text -> json_load text = Ok (PList items) ->
  Forall2 (fun item cap => from_dict item = Ok cap) items caps ->
  load_captures_from_json w = (Ok tt, set_captures caps w).
Proof.
  intros Hf Hl Hi. unfold load_captures_from_json. rewrite Hf.
  unfold try_except, bind at 1, lift. rewrite Hl.
  unfold bind at 1, modify. unfold bind at 1. cbn [py_iter].
  rewrite (load_items_ok _ _ _ Hi). by destruct w.
Qed.

Lemma load_list_fail w text good caps bad rest err :
  json_file w = Some text -> json_load text = Ok (PList (good ++ bad :: rest)) ->
  Forall2 (fun item cap => from_dict item = Ok cap) good caps ->
  from_dict bad = Raise err ->
  load_captures_from_json w =
    (Ok tt, log (WarningBox (ReadFailed err)) (set_captures caps w)).
Proof.
  intros Hf Hl Hg Hb. unfold load_captures_from_json. rewrite Hf.
  unfold try_except, bind at 1, lift. rewrite Hl.
  unfold bind at 1, modify. unfold bind at 1. cbn [py_iter].
  rewrite (load_items_fail _ _ _ _ _ _ Hg Hb). by destruct w.
Qed.

Lemma load_never_raises w : fst (load_captures_from_json w) = Ok tt.
Proof.
  unfold load_captures_from_json. destruct (json_file w) as [text|]; [|done].
  unfold try_except.
  match goal with |- context [match ?b with _ => _ end] => destruct b as [[[]|e] w'] end;
    reflexivity.
Qed.

(** Claim C3: saving a store of any number of regions and loading the
    file gives back the same store: the same regions in the same order,
    each with its bounds, text, click count and image.  This holds when
    PNG encoding is lossless and [json.load] reads back what [json.dump]
    wrote; the base64 layer is proved to round-trip.  The load raises no
    warning. *)
Theorem save_load_roundtrip `{!CodecsLossless Cd} w (e : Env) :
  let w1 := snd (save_captures_to_json w) in
  load_captures_from_json w1 = (Ok tt, w1) /\
  captures (init (json_file w1) e) = captures w /\
  trace (init (json_file w1) e) = [].
Proof.
  cbn zeta.
  assert (Hf : forall w0 : MainWindow,
    json_file w0 = json_file (snd (save_captures_to_json w)) ->
    load_captures_from_json w0 = (Ok tt, set_captures (captures w) w0)).
  { intros w0 Hw0. eapply load_list_ok; [exact Hw0|apply json_load_dump|].
    apply Forall2_from_dict_to_dict. }
  split; [|split].
  - rewrite Hf by done. by destruct w.
  - unfold init. by rewrite Hf.
  - unfold init. by rewrite Hf.
Qed.

(** Claim C6, as amended: at startup a missing file gives an empty store
    and no warning; a file whose text is no JSON gives an empty store and
    one warning; when the text parses to a list but a record cannot be
    rebuilt, one warning is shown and the records before it stay loaded;
    the load never raises. *)
Theorem load_degrades (e : Env) :
  (captures (init None e) = [] /\ trace (init None e) = []) /\
  (forall text err, json_load text = Raise err ->
     captures (init (Some text) e) = [] /\
     trace (init (Some text) e) = [WarningBox (ReadFailed err)]) /\
  (forall text good caps bad rest err,
     json_load text = Ok (PList (good ++ bad :: rest)) ->
     Forall2 (fun item cap => from_dict item = Ok cap) good caps ->
     from_dict bad = Raise err ->
     captures (init (Some text) e) = caps /\
     trace (init (Some text) e) = [WarningBox (ReadFailed err)]) /\
  (forall w, fst (load_captures_from_json w) = Ok tt).
Proof.
  split; [|split; [|split]].
  - unfold init. by rewrite load_missing.
  - intros text err Hl. unfold init.
    by rewrite (load_unparsable _ text err).
  - intros text good caps bad rest err Hl Hg Hb. unfold init.
    by rewrite (load_list_fail _ text good caps bad rest err).
  - apply load_never_raises.
Qed.

(** Claim C5, as amended: with a negative row (nothing selected)
    [delete_capture] does nothing and raises nothing; with a row at or
    past the end [pop] raises [IndexError] and neither the store nor the
    file changes; with a row inside the store exactly that region is
    removed and the result is saved. *)
Theorem delete_capture_cases w (i : Z) :
  (i < 0 -> delete_capture i w = (Ok tt, w)) /\
  (Z.of_nat (length (captures w)) <= i ->
     delete_capture i w = (Raise IndexError, w)) /\
  (0 <= i < Z.of_nat (length (captures w)) ->
     delete_capture i w =
       (Ok tt, saved (take (Z.to_nat i) (captures w) ++ drop (S (Z.to_nat i)) (captures w)) w)).
Proof.
  unfold delete_capture. split; [|split]; intros Hi.
  - destruct (Z.leb_spec 0 i); [lia|done].
  - destruct (Z.leb_spec 0 i); [|lia].
    unfold bind, get, lift, list_pop. by rewrite list_index_too_large.
  - destruct (Z.leb_spec 0 i); [|lia].
    unfold bind, get, lift, list_pop. rewrite list_index_in_range by done.
    cbn. by rewrite delete_take_drop.
Qed.

End Persistence.


Lemma load_degrades_witness :
  captures (init (Some broken_file) (env [])) = [go].
Proof.
  destruct (load_degrades (env [])) as (_ & _ & H & _).
  apply (H broken_file [to_dict go] [go] (PDict ∅) [] (KeyError "encoded_image"));
    [reflexivity| |reflexivity].
  constructor; [|constructor]. vm_compute. reflexivity.
Defined.

Lemma load_claim_fails :
  (forall m, WarningBox m ∉ trace (init None (env []))) /\
  captures (init (Some broken_file) (env [])) <> [].
Proof.
  split.
  - intros m. change (trace (init None (env []))) with (@nil Event).
    apply not_elem_of_nil.
  - vm_compute. discriminate.
Qed.

Lemma delete_capture_cases_witness :
  delete_capture 0 (window [go] []) = (Ok tt, saved [] (window [go] [])).
Proof.
  destruct (delete_capture_cases (window [go] []) 0) as (_ & _ & H).
  apply H. cbn. lia.
Defined.

Lemma delete_capture_claim_fails :
  fst (delete_capture (-1) (window [go] [])) = Ok tt /\
  ~ (exists err, fst (delete_capture (-1) (window [go] [])) = Raise err).
Proof. split; [reflexivity|]. intros [err H]. discriminate H. Qed.

Lemma save_load_roundtrip_witness :
  captures (init (json_file (snd (save_captures_to_json (window [go; edited] []))))
              (env [])) = [go; edited].
Proof.
  assert (L : CodecsLossless model_codecs) by (split; reflexivity).
  apply (save_load_roundtrip (window [go; edited] []) (env [])).
Defined.

(** ** What the executor can touch *)

Section Frame.
Context `{Cd : Codecs} `{Dk : Desktop}.

Lemma rebase_same w : rebase w w = w.
Proof. by destruct w. Qed.

Lemma world_only_ret {A} (a : A) : world_only (ret a).
Proof. done. Qed.

Lemma world_only_lift {A} (r : result A) : world_only (lift r).
Proof. done. Qed.

Lemma world_only_bind {A B} (m : M A) (k : A -> M B) :
  world_only m -> (forall a, world_only (k a)) -> world_only (bind m k).
Proof.
  intros Hm Hk w0 w. unfold bind. rewrite Hm.
  destruct (m w) as [[a|e] w1]; cbn [fst snd]; [apply Hk|done].
Qed.

Lemma world_only_try_except {A} (m : M A) (h : exn -> M A) :
  world_only m -> (forall e, world_only (h e)) -> world_only (try_except m h).
Proof.
  intros Hm Hh w0 w. unfold try_except. rewrite Hm.
  destruct (m w) as [[a|e] w1]; cbn [fst snd]; [done|apply Hh].
Qed.

Lemma world_only_when (b : bool) (m : M unit) :
  world_only m -> world_only (when_ b m).
Proof. destruct b; [done|intros _; apply world_only_ret]. Qed.

Lemma world_only_for_each {A} (body : A -> M unit) (l : list A) :
  (forall a, world_only (body a)) -> world_only (for_each body l).
Proof.
  intros Hb. induction l as [|a l IH]; cbn [for_each].
  - apply world_only_ret.
  - apply world_only_bind; [apply Hb|intros _; apply IH].
Qed.

Lemma world_only_log (ev : Event) : world_only (modify (log ev)).
Proof. done. Qed.

Lemma world_only_call {A} (ev : Event) (f : Env -> result A * Env) :
  world_only (call ev f).
Proof. intros w0 w. unfold call. cbn. by destruct (f (desktop w)). Qed.

Lemma world_only_sleep (ms : Z) : world_only (sleep ms).
Proof. done. Qed.

Lemma world_only_outside {A} (f : Env -> result A * Env) : world_only (outside f).
Proof. intros w0 w. unfold outside. cbn. by destruct (f (desktop w)). Qed.

Ltac world_only_step :=
  first
    [ apply world_only_bind; [|intros ?]
    | apply world_only_try_except; [|intros ?]
    | apply world_only_when
    | apply world_only_for_each; intros ?
    | apply world_only_ret
    | apply world_only_lift
    | apply world_only_log
    | apply world_only_call
    | apply world_only_sleep
    | match goal with |- world_only (if ?b then _ else _) => destruct b end ].

Lemma world_only_click_loop inf c cx cy i k :
  world_only (click_loop inf c cx cy i k).
Proof.
  revert i. induction k as [|k IH]; intros i; cbn [click_loop].
  - apply world_only_ret.
  - unfold setText, processEvents, moveTo, click.
    repeat first [world_only_step | apply IH].
Qed.

Lemma world_only_process_capture inf c : world_only (process_capture inf c).
Proof.
  unfold process_capture, screenshot, classification, setText, processEvents.
  repeat first [world_only_step | apply world_only_click_loop].
Qed.

Lemma world_only_batch_prologue inf : world_only (batch_prologue inf).
Proof. unfold batch_prologue, position, setText, processEvents. repeat world_only_step. Qed.

Lemma world_only_batch_epilogue inf orig : world_only (batch_epilogue inf orig).
Proof. unfold batch_epilogue, moveTo, setText. repeat world_only_step. Qed.

Lemma world_only_batch_handler inf e : world_only (batch_handler inf e).
Proof. unfold batch_handler, setText, warning. repeat world_only_step. Qed.

Lemma world_only_finish_batch orig todo : world_only (finish_batch orig todo).
Proof.
  unfold finish_batch.
  repeat first [ apply world_only_process_capture
               | apply world_only_batch_epilogue
               | apply world_only_batch_handler
               | world_only_step ].
Qed.

(** *** Observations that a computation keeps *)

Lemma world_only_keeps {A B} (f : MainWindow -> B) (m : M A) :
  (forall w0 w, f (rebase w0 w) = f w0) -> world_only m -> keeps f m.
Proof.
  intros Hf Hm w. specialize (Hm w w). rewrite rebase_same in Hm.
  destruct (m w) as [r w1]. cbn [fst snd] in *.
  injection Hm as Hm. rewrite Hm. apply Hf.
Qed.

Lemma keeps_bind {A B C} (f : MainWindow -> C) (m : M A) (k : A -> M B) :
  keeps f m -> (forall a, keeps f (k a)) -> keeps f (bind m k).
Proof.
  intros Hm Hk w. unfold bind. specialize (Hm w).
  destruct (m w) as [[a|e] w1]; cbn [snd] in *; [|done].
  by rewrite Hk.
Qed.

Lemma keeps_try_except {A C} (f : MainWindow -> C) (m : M A) (h : exn -> M A) :
  keeps f m -> (forall e, keeps f (h e)) -> keeps f (try_except m h).
Proof.
  intros Hm Hh w. unfold try_except. specialize (Hm w).
  destruct (m w) as [[a|e] w1]; cbn [snd] in *; [done|].
  by rewrite Hh.
Qed.

Lemma keeps_get {C} (f : MainWindow -> C) : keeps f get.
Proof. done. Qed.

Lemma store_rebase w0 w : store (rebase w0 w) = store w0.
Proof. done. Qed.

Lemma runner_rebase w0 w : runner (rebase w0 w) = runner w0.
Proof. done. Qed.

Lemma keeps_execute_all_clicks {C} (f : MainWindow -> C) inf :
  (forall w0 w, f (rebase w0 w) = f w0) -> keeps f (execute_all_clicks inf).
Proof.
  intros Hf. unfold execute_all_clicks.
  apply keeps_try_except.
  - apply keeps_bind; [apply world_only_keeps, world_only_batch_prologue; done|].
    intros orig. apply keeps_bind; [apply keeps_get|]. intros w.
    apply world_only_keeps; [done|]. apply world_only_bind.
    + apply world_only_for_each. intros c. apply world_only_process_capture.
    + intros _. apply world_only_batch_epilogue.
  - intros e. by apply world_only_keeps, world_only_batch_handler.
Qed.

Lemma keeps_execute_single_click {C} (f : MainWindow -> C) row :
  (forall w0 w, f (rebase w0 w) = f w0) -> keeps f (execute_single_click row).
Proof.
  intros Hf. unfold execute_single_click.
  apply keeps_bind; [apply keeps_get|]. intros w.
  apply world_only_keeps; [done|].
  unfold warning, setText, processEvents, position, screenshot, classification,
    moveTo, click.
  repeat world_only_step.
Qed.

Lemma keeps_store_set_pc tid p : keeps store (set_pc tid p).
Proof. done. Qed.

Lemma keeps_store_worker_step tid : keeps store (worker_step tid).
Proof.
  unfold worker_step.
  apply keeps_bind; [apply keeps_get|]. intros w.
  destruct (threads w !! tid) as [t|]; [|done].
  destruct (pc t) as [|orig [|c todo]| |].
  - destruct (keep_running t); [|apply keeps_store_set_pc].
    apply keeps_try_except.
    + apply keeps_bind; [by apply world_only_keeps, world_only_batch_prologue|].
      intros orig. apply keeps_bind; [apply keeps_get|].
      intros w1. apply keeps_store_set_pc.
    + intros e. apply keeps_bind; [|intros _; apply keeps_store_set_pc].
      by apply world_only_keeps, world_only_batch_handler.
  - apply keeps_bind; [|intros _; apply keeps_store_set_pc].
    apply world_only_keeps; [done|]. apply world_only_try_except;
      [apply world_only_batch_epilogue|intros e; apply world_only_batch_handler].
  - apply keeps_try_except.
    + apply keeps_bind; [|intros _; apply keeps_store_set_pc].
      by apply world_only_keeps, world_only_process_capture.
    + intros e. apply keeps_bind; [|intros _; apply keeps_store_set_pc].
      by apply world_only_keeps, world_only_batch_handler.
  - apply keeps_bind; [|intros _; apply keeps_store_set_pc].
    by apply world_only_keeps, world_only_sleep.
  - done.
Qed.

(** Claim C8: no use of the click executor (a foreground batch, a batch
    of the continuous runner, a single-region test, a step of a worker
    thread) changes the store or its file, whatever the desktop shows and
    whatever recognition answers; so the text and image that a region
    received when it was added stay as they were. *)
Theorem executor_writes_nothing (runs : list ExecutorRun) w :
  captures (foldl (fun w0 r => executor_run r w0) w runs) = captures w /\
  json_file (foldl (fun w0 r => executor_run r w0) w runs) = json_file w.
Proof.
  assert (H : store (foldl (fun w0 r => executor_run r w0) w runs) = store w).
  { revert w. induction runs as [|r runs IH]; intros w; [done|].
    cbn [foldl]. rewrite IH. destruct r as [inf|row|tid]; cbn [executor_run].
    - by apply keeps_execute_all_clicks.
    - by apply keeps_execute_single_click.
    - apply keeps_store_worker_step. }
  by injection H.
Qed.

End Frame.

(** ** The click executor *)

Section Executor.
Context `{Cd : Codecs} `{Dk : Desktop}.

Lemma bind_inv_ok {A B} (m : M A) (k : A -> M B) w b w' :
  bind m k w = (Ok b, w') ->
  exists a w1, m w = (Ok a, w1) /\ k a w1 = (Ok b, w').
Proof.
  unfold bind. destruct (m w) as [[a|e] w1]; [|done]. intros H. by exists a, w1.
Qed.

Lemma call_inv_ok {A} ev (f : Env -> result A * Env) w a w1 :
  call ev f w = (Ok a, w1) ->
  exists e1, f (desktop w) = (Ok a, e1) /\ w1 = set_desktop e1 (log ev w).
Proof.
  unfold call. cbn. destruct (f (desktop w)) as [r e1]. intros [= -> <-]. by exists e1.
Qed.





Lemma for_each_raise {A} (body : A -> M unit) pre a post w w1 err w2 :
  for_each body pre w = (Ok tt, w1) ->
  body a w1 = (Raise err, w2) ->
  for_each body (pre ++ a :: post) w = (Raise err, w2).
Proof.
  intros Hpre Ha. rewrite (for_each_app _ _ _ _ _ Hpre).
  cbn [for_each]. unfold bind. by rewrite Ha.
Qed.

(** Claim C2, as amended: when processing a region raises (capture,
    recognition, the click primitive or anything else), the batch ends
    there and returns normally: the regions after it are not processed
    and no restoring move is issued.  A foreground batch then sets the
    status label and shows a warning box; a batch of the continuous
    runner reports nothing. *)
Theorem batch_aborts_on_exception inf w original w0 pre c post w1 err w2 :
  batch_prologue inf w = (Ok original, w0) ->
  captures w = pre ++ c :: post ->
  for_each (process_capture inf) pre w0 = (Ok tt, w1) ->
  process_capture inf c w1 = (Raise err, w2) ->
  let reported :=
    if inf then w2
    else log (WarningBox (ExecuteFailed err)) (log (SetStatus (BatchError err)) w2) in
  execute_all_clicks inf w = (Ok tt, reported) /\
  trace reported =
    trace w2 ++ (if inf then []
                 else [SetStatus (BatchError err); WarningBox (ExecuteFailed err)]) /\
  desktop reported = desktop w2.
Proof.
  intros Hpro Hcs Hpre Hc reported.
  split; [|by destruct inf; cbn; rewrite ?app_nil_r, <- ?app_assoc].
  unfold execute_all_clicks, try_except.
  unfold bind at 1. rewrite Hpro.
  unfold bind at 1, get.
  pose proof (world_only_keeps captures _ (fun _ _ => eq_refl)
                (world_only_batch_prologue inf) w) as Hk.
  rewrite Hpro in Hk. cbn [snd] in Hk. rewrite Hk, Hcs.
  unfold bind at 1. rewrite (for_each_raise _ _ _ _ _ _ _ _ Hpre Hc).
  subst reported. by destruct inf.
Qed.

End Executor.

(** ** The continuous runner *)

Section Runner.
Context `{Cd : Codecs} `{Dk : Desktop}.

Lemma thread_local_world_only {A} tid (m : M A) : world_only m -> thread_local tid m.
Proof.
  intros Hm w.
  pose proof (world_only_keeps runner m runner_rebase Hm w) as Hr.
  injection Hr as Hw Ht. split; [done|]. exists id. by rewrite list_alter_id.
Qed.

Lemma thread_local_bind {A B} tid (m : M A) (k : A -> M B) :
  thread_local tid m -> (forall a, thread_local tid (k a)) -> thread_local tid (bind m k).
Proof.
  intros Hm Hk w. unfold bind. destruct (Hm w) as [Hw [g Hg]].
  destruct (m w) as [[a|e] w1]; cbn [snd] in *; [|eauto].
  destruct (Hk a w1) as [Hw1 [g1 Hg1]]. split; [congruence|].
  exists (g1 ∘ g). by rewrite Hg1, Hg, list_alter_alter_eq.
Qed.

Lemma thread_local_try_except {A} tid (m : M A) (h : exn -> M A) :
  thread_local tid m -> (forall e, thread_local tid (h e)) ->
  thread_local tid (try_except m h).
Proof.
  intros Hm Hh w. unfold try_except. destruct (Hm w) as [Hw [g Hg]].
  destruct (m w) as [[a|e] w1]; cbn [snd] in *; [eauto|].
  destruct (Hh e w1) as [Hw1 [g1 Hg1]]. split; [congruence|].
  exists (g1 ∘ g). by rewrite Hg1, Hg, list_alter_alter_eq.
Qed.

Lemma thread_local_get tid : thread_local tid get.
Proof. intros w. split; [done|]. exists id. by rewrite list_alter_id. Qed.

Lemma thread_local_set_pc tid p : thread_local tid (set_pc tid p).
Proof. intros w. split; [done|]. by eexists. Qed.

Lemma thread_local_worker_step tid : thread_local tid (worker_step tid).
Proof.
  unfold worker_step.
  apply thread_local_bind; [apply thread_local_get|]. intros w.
  destruct (threads w !! tid) as [t|]; [|by apply thread_local_world_only].
  destruct (pc t) as [|orig [|c todo]| |].
  - destruct (keep_running t); [|apply thread_local_set_pc].
    apply thread_local_try_except.
    + apply thread_local_bind;
        [apply thread_local_world_only, world_only_batch_prologue|].
      intros orig. apply thread_local_bind; [apply thread_local_get|].
      intros w1. apply thread_local_set_pc.
    + intros e. apply thread_local_bind; [|intros _; apply thread_local_set_pc].
      apply thread_local_world_only, world_only_batch_handler.
  - apply thread_local_bind; [|intros _; apply thread_local_set_pc].
    apply thread_local_world_only, world_only_try_except;
      [apply world_only_batch_epilogue|intros e; apply world_only_batch_handler].
  - apply thread_local_try_except.
    + apply thread_local_bind; [|intros _; apply thread_local_set_pc].
      apply thread_local_world_only, world_only_process_capture.
    + intros e. apply thread_local_bind; [|intros _; apply thread_local_set_pc].
      apply thread_local_world_only, world_only_batch_handler.
  - apply thread_local_bind; [|intros _; apply thread_local_set_pc].
    apply thread_local_world_only, world_only_sleep.
  - by apply thread_local_world_only.
Qed.

Lemma run_step_worker_thread tid w : worker_thread (run_step tid w) = worker_thread w.
Proof. apply thread_local_worker_step. Qed.

Lemma run_step_other tid tid' w :
  tid <> tid' -> threads (run_step tid w) !! tid' = threads w !! tid'.
Proof.
  intros Hne. destruct (thread_local_worker_step tid w) as [_ [g Hg]].
  unfold run_step. rewrite Hg. by apply list_lookup_alter_ne.
Qed.

Lemma run_step_finished tid w : thread_finished tid w = true -> run_step tid w = w.
Proof.
  unfold thread_finished, run_step, worker_step, bind, get, isRunning.
  destruct (threads w !! tid) as [t|]; [|done].
  by destruct (pc t).
Qed.

Lemma wait_some fuel tid : forall w w1,
  wait fuel tid w = Some w1 ->
  thread_finished tid w1 = true /\
  worker_thread w1 = worker_thread w /\
  (forall tid', tid <> tid' -> threads w1 !! tid' = threads w !! tid').
Proof.
  induction fuel as [|fuel IH]; intros w w1; cbn [wait];
    destruct (thread_finished tid w) eqn:Hf.
  - by intros [= <-].
  - done.
  - by intros [= <-].
  - intros Hw. apply IH in Hw as (H1 & H2 & H3).
    split; [done|]. split; [by rewrite H2, run_step_worker_thread|].
    intros tid' Hne. by rewrite H3, run_step_other.
Qed.


(** *** At most one running thread *)

Lemma thread_finished_false tid w :
  thread_finished tid w = false <->
  exists t, threads w !! tid = Some t /\ isRunning t = true.
Proof.
  unfold thread_finished. destruct (threads w !! tid) as [t|].
  - destruct (isRunning t) eqn:Hr; cbn; split.
    + intros _. by exists t.
    + done.
    + done.
    + intros (t' & [= <-] & ?). congruence.
  - split; [done|]. by intros (t & ? & _).
Qed.

Lemma single_runner_runner w w' :
  runner w' = runner w -> single_runner w -> single_runner w'.
Proof.
  unfold single_runner. intros [= Hw Ht] H tid t. rewrite Hw, Ht. apply H.
Qed.

Lemma single_runner_none_running w :
  single_runner w -> worker_running w = false ->
  forall tid t, threads w !! tid = Some t -> isRunning t = false.
Proof.
  intros Hs Hr tid t Ht. destruct (isRunning t) eqn:Hrun; [|done].
  unfold worker_running in Hr. rewrite (Hs tid t Ht Hrun), Ht in Hr. congruence.
Qed.

Lemma keeps_runner_modify (f : MainWindow -> MainWindow) :
  (forall w, runner (f w) = runner w) -> keeps runner (modify f).
Proof. intros Hf w. apply Hf. Qed.

Lemma keeps_runner_save : keeps runner save_captures_to_json.
Proof. done. Qed.

Lemma keeps_runner_lift {A} (r : result A) : keeps runner (lift r).
Proof. done. Qed.

Lemma keeps_runner_load : keeps runner load_captures_from_json.
Proof.
  intros w. unfold load_captures_from_json.
  destruct (json_file w) as [text|]; [|done].
  revert w. apply keeps_try_except.
  - apply keeps_bind; [apply keeps_runner_lift|]. intros data.
    apply keeps_bind; [by apply keeps_runner_modify|]. intros _.
    apply keeps_bind; [apply keeps_runner_lift|]. intros items.
    induction items as [|item items IH]; [done|]. cbn [for_each].
    apply keeps_bind; [|intros _; apply IH].
    apply keeps_bind; [apply keeps_runner_lift|]. intros cap.
    by apply keeps_runner_modify.
  - intros e. by apply keeps_runner_modify.
Qed.

Lemma keeps_runner_start_capture info : keeps runner (start_capture info).
Proof.
  unfold start_capture.
  apply keeps_bind; [by apply keeps_runner_modify|]. intros _.
  destruct info as [[[[[ix iy] iw] ih] pixmap]|]; [|done].
  apply keeps_bind; [apply keeps_get|]. intros w0.
  apply keeps_bind; [by apply keeps_runner_modify|]. intros _.
  apply keeps_bind;
    [|intros _; apply (world_only_keeps _ _ runner_rebase), world_only_outside].
  apply keeps_try_except.
  - apply keeps_bind;
      [apply (world_only_keeps _ _ runner_rebase), world_only_outside|].
    intros image_bytes.
    apply keeps_bind; [apply (world_only_keeps _ _ runner_rebase), world_only_call|].
    intros text. apply keeps_bind; [by apply keeps_runner_modify|].
    intros _. apply keeps_runner_save.
  - intros e. by apply keeps_runner_modify.
Qed.

Lemma keeps_runner_delete_capture row : keeps runner (delete_capture row).
Proof.
  unfold delete_capture. destruct (0 <=? row); [|done].
  apply keeps_bind; [apply keeps_get|]. intros w.
  apply keeps_bind; [apply keeps_runner_lift|]. intros rest.
  apply keeps_bind; [by apply keeps_runner_modify|]. intros _.
  apply keeps_runner_save.
Qed.

Lemma keeps_runner_set_click_count row : keeps runner (set_click_count row).
Proof.
  unfold set_click_count. destruct (0 <=? row); [|done].
  apply keeps_bind; [apply keeps_get|]. intros w.
  apply keeps_bind; [apply keeps_runner_lift|]. intros cap.
  apply keeps_bind; [by apply keeps_runner_modify|]. intros _.
  apply keeps_runner_save.
Qed.

Lemma single_runner_init file e : single_runner (init file e).
Proof.
  unfold init. eapply single_runner_runner; [apply keeps_runner_load|].
  intros tid t Ht. cbn in Ht. by rewrite lookup_nil in Ht.
Qed.

Lemma single_runner_start w :
  single_runner w -> single_runner (snd (start_infinite_execution w)).
Proof.
  intros Hs. unfold start_infinite_execution, bind, get.
  destruct (worker_running w) eqn:Hr; [by eapply single_runner_runner|].
  intros tid t Ht Hrun. cbn in Ht |- *.
  destruct (decide (tid < length (threads w))%nat) as [Hlt|Hge].
  - rewrite lookup_app_l in Ht by done.
    by rewrite (single_runner_none_running w Hs Hr tid t Ht) in Hrun.
  - apply lookup_lt_Some in Ht as Hlen. rewrite length_app in Hlen.
    cbn in Hlen. f_equal. lia.
Qed.

Lemma single_runner_stop fuel w w' :
  single_runner w -> stop_infinite_execution fuel w = Some w' -> single_runner w'.
Proof.
  intros Hs. unfold stop_infinite_execution.
  destruct (worker_running w) eqn:Hr.
  - destruct (worker_thread w) as [tid|] eqn:Hw;
      [|by unfold worker_running in Hr; rewrite Hw in Hr].
    destruct (wait fuel tid (thread_stop tid w)) as [w1|] eqn:Hwait; [|done].
    cbn. intros [= <-]. apply wait_some in Hwait as (Hfin & _ & Hother).
    intros tid' t Ht Hrun. exfalso. cbn in Ht.
    destruct (decide (tid = tid')) as [<-|Hne].
    + unfold thread_finished in Hfin. rewrite Ht, Hrun in Hfin. done.
    + rewrite Hother in Ht by done. cbn in Ht.
      rewrite list_lookup_alter_ne in Ht by done.
      pose proof (Hs tid' t Ht Hrun). congruence.
  - cbn. intros [= <-]. by eapply single_runner_runner.
Qed.

Lemma single_runner_run_step tid w :
  single_runner w -> single_runner (run_step tid w).
Proof.
  intros Hs. destruct (thread_finished tid w) eqn:Hf.
  - by rewrite run_step_finished.
  - apply thread_finished_false in Hf as (t0 & Ht0 & Hrun0).
    intros tid' t Ht Hrun. rewrite run_step_worker_thread.
    destruct (decide (tid = tid')) as [<-|Hne]; [by eapply Hs|].
    rewrite run_step_other in Ht by done. by eapply Hs.
Qed.

Lemma single_runner_perform a w w' :
  single_runner w -> perform a w = Some w' -> single_runner w'.
Proof.
  intros Hs. destruct a; cbn [perform].
  - intros [= <-]. eapply single_runner_runner; [apply keeps_runner_start_capture|done].
  - intros [= <-]. eapply single_runner_runner; [apply keeps_runner_delete_capture|done].
  - intros [= <-]. eapply single_runner_runner; [apply keeps_runner_set_click_count|done].
  - intros [= <-]. eapply single_runner_runner;
      [apply (keeps_execute_all_clicks runner _ runner_rebase)|done].
  - intros [= <-]. eapply single_runner_runner;
      [apply (keeps_execute_single_click runner _ runner_rebase)|done].
  - intros [= <-]. by apply single_runner_start.
  - by apply single_runner_stop.
  - unfold clear_all_captures. destruct confirmed; cbn [negb]; [|by intros [= <-]].
    destruct (stop_infinite_execution fuel w) as [w1|] eqn:Hstop; [|done].
    cbn. intros [= <-]. apply single_runner_stop in Hstop; [|done].
    destruct removed; by eapply single_runner_runner.
  - unfold closeEvent.
    destruct (stop_infinite_execution fuel w) as [w1|] eqn:Hstop; [|done].
    cbn. intros [= <-]. apply single_runner_stop in Hstop; [|done].
    by eapply single_runner_runner.
  - intros [= <-]. by apply single_runner_run_step.
Qed.

Lemma single_runner_reachable w : reachable w -> single_runner w.
Proof.
  induction 1 as [file e|a w w' _ IH Hp].
  - apply single_runner_init.
  - by eapply single_runner_perform.
Qed.

Lemma single_runner_at_most_one w :
  single_runner w -> (length (running_threads w) <= 1)%nat.
Proof.
  intros Hs.
  assert (Hnd : NoDup (running_threads w)).
  { apply NoDup_filter, NoDup_seq. }
  assert (Hin : forall tid, tid ∈ running_threads w -> worker_thread w = Some tid).
  { intros tid Hin. apply list_elem_of_filter in Hin as [Hf _].
    apply thread_finished_false in Hf as (t & Ht & Hrun). by eapply Hs. }
  destruct (running_threads w) as [|a [|b l]]; cbn; [lia..|].
  exfalso. assert (a = b) as ->.
  { pose proof (Hin a ltac:(set_solver)). pose proof (Hin b ltac:(set_solver)).
    congruence. }
  apply NoDup_cons in Hnd as [Hnd _]. set_solver.
Qed.

End Runner.

(** *** Stopping waits for the batch *)

Section Join.
Context `{Cd : Codecs} `{Dk : Desktop}.

Lemma alter_lookup {A} (f : A -> A) (l : list A) i a :
  l !! i = Some a -> alter f i l = <[i := f a]> l.
Proof.
  intros Hi. apply list_eq. intros j.
  destruct (decide (i = j)) as [<-|Hne].
  - rewrite list_lookup_alter_eq, Hi, list_lookup_insert_eq; [done|].
    by apply lookup_lt_Some in Hi.
  - by rewrite list_lookup_alter_ne, list_lookup_insert_ne.
Qed.

Lemma set_pc_set_thread tid p w t :
  threads w !! tid = Some t ->
  set_pc tid p w = (Ok tt, set_thread tid (mkWorkerThread (keep_running t) p) w).
Proof.
  intros Ht. unfold set_pc, modify, set_thread. by rewrite (alter_lookup _ _ _ _ Ht).
Qed.

Lemma world_only_threads {A} (m : M A) w : world_only m -> threads (snd (m w)) = threads w.
Proof.
  intros Hm. pose proof (world_only_keeps runner m runner_rebase Hm w) as Hr.
  by injection Hr.
Qed.

Lemma world_only_set_thread {A} (m : M A) tid t w :
  world_only m -> m (set_thread tid t w) = (fst (m w), set_thread tid t (snd (m w))).
Proof.
  intros Hm.
  assert (Hw : set_thread tid t w = rebase (set_thread tid t w) w) by done.
  rewrite Hw at 1. rewrite Hm. f_equal.
  pose proof (Hm w w) as Hww. rewrite rebase_same in Hww.
  destruct (m w) as [r w1]. cbn [fst snd] in *. injection Hww as Hww.
  rewrite Hww at 2. unfold set_thread, rebase. cbn. done.
Qed.

Lemma set_thread_set_thread tid t1 t2 w :
  set_thread tid t2 (set_thread tid t1 w) = set_thread tid t2 w.
Proof. unfold set_thread. cbn. by rewrite list_insert_insert_eq. Qed.

Lemma set_thread_lookup tid t t0 w :
  threads w !! tid = Some t0 -> threads (set_thread tid t w) !! tid = Some t.
Proof.
  intros Ht. cbn. apply list_lookup_insert_eq. by apply lookup_lt_Some in Ht.
Qed.

Lemma run_step_batch_end tid kr orig w :
  threads w !! tid = Some (mkWorkerThread kr (InBatch orig [])) ->
  run_step tid w =
    set_thread tid (mkWorkerThread kr Sleeping)
      (snd (try_except (batch_epilogue true orig) (batch_handler true) w)).
Proof.
  intros Ht. unfold run_step, worker_step. unfold bind at 1, get. rewrite Ht. cbn [pc].
  unfold bind.
  assert (Hwo : world_only (try_except (batch_epilogue true orig) (batch_handler true))).
  { apply world_only_try_except; [apply world_only_batch_epilogue|].
    intros e. apply world_only_batch_handler. }
  pose proof (world_only_threads _ w Hwo) as Hth.
  destruct (try_except _ _ w) as [[[]|e] w1] eqn:Hm; cbn [snd] in *.
  - rewrite <- Hth in Ht. by rewrite (set_pc_set_thread _ _ _ _ Ht).
  - exfalso. unfold try_except, batch_handler in Hm. cbn in Hm.
    destruct (batch_epilogue true orig w) as [[[]|e'] w2]; discriminate.
Qed.

Lemma run_step_sleeping tid kr w :
  threads w !! tid = Some (mkWorkerThread kr Sleeping) ->
  run_step tid w = set_thread tid (mkWorkerThread kr AtLoopHead) (snd (sleep 1000 w)).
Proof.
  intros Ht. unfold run_step, worker_step. unfold bind at 1, get. rewrite Ht. cbn [pc].
  unfold bind. cbn [sleep].
  by rewrite (set_pc_set_thread _ _ _ (mkWorkerThread kr Sleeping)).
Qed.

Lemma run_step_stopped tid w :
  threads w !! tid = Some (mkWorkerThread false AtLoopHead) ->
  run_step tid w = set_thread tid (mkWorkerThread false Finished) w.
Proof.
  intros Ht. unfold run_step, worker_step. unfold bind at 1, get. rewrite Ht.
  cbn [pc keep_running]. by rewrite (set_pc_set_thread _ _ _ _ Ht).
Qed.

Lemma run_step_region tid kr orig c todo w :
  threads w !! tid = Some (mkWorkerThread kr (InBatch orig (c :: todo))) ->
  run_step tid w =
    match process_capture true c w with
    | (Ok _, w1) => set_thread tid (mkWorkerThread kr (InBatch orig todo)) w1
    | (Raise _, w1) => set_thread tid (mkWorkerThread kr Sleeping) w1
    end.
Proof.
  intros Ht. unfold run_step, worker_step. unfold bind at 1, get. rewrite Ht. cbn [pc].
  pose proof (world_only_threads (process_capture true c) w
                (world_only_process_capture true c)) as Hth.
  unfold try_except, bind.
  destruct (process_capture true c w) as [[[]|e] w1]; cbn [snd] in *;
    rewrite <- Hth in Ht.
  - cbn beta iota. by rewrite (set_pc_set_thread _ _ _ _ Ht).
  - unfold batch_handler. cbn beta iota delta [when_ negb ret].
    by rewrite (set_pc_set_thread _ _ _ _ Ht).
Qed.


Lemma thread_finished_running tid w t :
  threads w !! tid = Some t -> isRunning t = true -> thread_finished tid w = false.
Proof. intros Ht Hr. apply thread_finished_false. eauto. Qed.

Lemma wait_finished fuel tid w :
  thread_finished tid w = true -> wait fuel tid w = Some w.
Proof. intros Hf. destruct fuel; cbn [wait]; by rewrite Hf. Qed.

Lemma wait_stopped fuel tid w :
  threads w !! tid = Some (mkWorkerThread false AtLoopHead) -> (1 <= fuel)%nat ->
  wait fuel tid w = Some (set_thread tid (mkWorkerThread false Finished) w).
Proof.
  intros Ht Hfuel. destruct fuel as [|fuel]; [lia|]. cbn [wait].
  rewrite (thread_finished_running _ _ _ Ht) by done.
  rewrite (run_step_stopped _ _ Ht). apply wait_finished.
  unfold thread_finished. by rewrite (set_thread_lookup _ _ _ _ Ht).
Qed.

Lemma wait_sleeping fuel tid w :
  threads w !! tid = Some (mkWorkerThread false Sleeping) -> (2 <= fuel)%nat ->
  wait fuel tid w =
    Some (set_thread tid (mkWorkerThread false Finished) (snd (sleep 1000 w))).
Proof.
  intros Ht Hfuel. destruct fuel as [|fuel]; [lia|]. cbn [wait].
  rewrite (thread_finished_running _ _ _ Ht) by done.
  rewrite (run_step_sleeping _ _ _ Ht).
  rewrite wait_stopped; [|by eapply set_thread_lookup|lia].
  by rewrite set_thread_set_thread.
Qed.

Lemma finish_batch_nil orig w :
  finish_batch orig [] w =
    sleep 1000 (snd (try_except (batch_epilogue true orig) (batch_handler true) w)).
Proof.
  unfold finish_batch. cbn [for_each]. unfold bind at 1.
  change (ret () >> batch_epilogue true orig) with
    (fun w0 : MainWindow => batch_epilogue true orig w0).
  unfold try_except, batch_handler. cbn [negb when_].
  by destruct (batch_epilogue true orig w) as [[[]|e] w1].
Qed.

Lemma finish_batch_cons orig c todo w :
  finish_batch orig (c :: todo) w =
    match process_capture true c w with
    | (Ok _, w1) => finish_batch orig todo w1
    | (Raise _, w1) => sleep 1000 w1
    end.
Proof.
  unfold finish_batch. cbn [for_each]. unfold bind, try_except.
  by destruct (process_capture true c w) as [[[]|e] w1].
Qed.

Lemma wait_in_batch tid orig todo : forall fuel w,
  threads w !! tid = Some (mkWorkerThread false (InBatch orig todo)) ->
  (length todo + 3 <= fuel)%nat ->
  wait fuel tid w =
    Some (set_thread tid (mkWorkerThread false Finished) (snd (finish_batch orig todo w))).
Proof.
  induction todo as [|c todo IH]; intros fuel w Ht Hfuel;
    (destruct fuel as [|fuel]; [cbn in Hfuel; lia|]); cbn [wait];
    rewrite (thread_finished_running _ _ _ Ht) by done.
  - rewrite (run_step_batch_end _ _ _ _ Ht), finish_batch_nil.
    set (wa := snd (try_except _ _ w)).
    assert (Hwa : threads wa !! tid = Some (mkWorkerThread false (InBatch orig []))).
    { subst wa. rewrite world_only_threads; [done|].
      apply world_only_try_except; [apply world_only_batch_epilogue|].
      intros e. apply world_only_batch_handler. }
    rewrite wait_sleeping; [|by eapply set_thread_lookup|cbn in Hfuel; lia].
    rewrite (world_only_set_thread _ _ _ _ (world_only_sleep 1000)). cbn [snd].
    by rewrite set_thread_set_thread.
  - rewrite (run_step_region _ _ _ _ _ _ Ht), finish_batch_cons.
    pose proof (world_only_threads _ w (world_only_process_capture true c)) as Hth.
    destruct (process_capture true c w) as [[[]|e] w1]; cbn [snd] in Hth;
      rewrite <- Hth in Ht.
    + rewrite IH; [|by eapply set_thread_lookup|cbn in Hfuel; lia].
      rewrite (world_only_set_thread _ _ _ _ (world_only_finish_batch orig todo)).
      cbn [snd]. by rewrite set_thread_set_thread.
    + rewrite wait_sleeping; [|by eapply set_thread_lookup|cbn in Hfuel; lia].
      rewrite (world_only_set_thread _ _ _ _ (world_only_sleep 1000)). cbn [snd].
      by rewrite set_thread_set_thread.
Qed.

Lemma thread_stop_set_thread tid t w :
  threads w !! tid = Some t ->
  thread_stop tid w = set_thread tid (mkWorkerThread false (pc t)) w.
Proof. intros Ht. unfold thread_stop, set_thread. by rewrite (alter_lookup _ _ _ _ Ht). Qed.

Lemma stop_idle fuel w :
  worker_running w = false ->
  stop_infinite_execution fuel w =
    Some (log (SetStatus InfiniteStopped) (log RemoveEventFilter w)).
Proof. intros Hr. unfold stop_infinite_execution. by rewrite Hr. Qed.

Lemma start_running w :
  worker_running w = true ->
  start_infinite_execution w = (Ok tt, log (InformationBox AlreadyRunning) w).
Proof. intros Hr. unfold start_infinite_execution, bind, get. by rewrite Hr. Qed.

Lemma stop_in_batch fuel w tid kr orig todo :
  worker_thread w = Some tid ->
  threads w !! tid = Some (mkWorkerThread kr (InBatch orig todo)) ->
  (length todo + 3 <= fuel)%nat ->
  stop_infinite_execution fuel w =
    Some (log (SetStatus InfiniteStopped) (log RemoveEventFilter
           (set_worker_thread None
              (set_thread tid (mkWorkerThread false Finished)
                 (snd (finish_batch orig todo w)))))).
Proof.
  intros Hw Ht Hfuel. unfold stop_infinite_execution.
  assert (Hr : worker_running w = true) by (unfold worker_running; by rewrite Hw, Ht).
  rewrite Hr, Hw, (thread_stop_set_thread _ _ _ Ht). cbn [pc].
  rewrite (wait_in_batch tid orig todo); [|by eapply set_thread_lookup|done].
  rewrite (world_only_set_thread _ _ _ _ (world_only_finish_batch orig todo)).
  cbn [snd]. by rewrite set_thread_set_thread.
Qed.

Lemma stop_returns w :
  exists fuel0, forall fuel, (fuel0 <= fuel)%nat ->
    is_Some (stop_infinite_execution fuel w).
Proof.
  destruct (worker_running w) eqn:Hr;
    [|exists O; intros fuel _; by rewrite stop_idle].
  unfold worker_running in Hr.
  destruct (worker_thread w) as [tid|] eqn:Hw; [|done].
  destruct (threads w !! tid) as [[kr p]|] eqn:Ht; [|done].
  destruct p as [|orig todo| |]; [| | |done].
  - exists 1%nat. intros fuel Hfuel. unfold stop_infinite_execution, worker_running.
    rewrite Hw, Ht. cbn [isRunning pc]. rewrite (thread_stop_set_thread _ _ _ Ht).
    rewrite wait_stopped; [done|by eapply set_thread_lookup|done].
  - exists (length todo + 3)%nat. intros fuel Hfuel.
    by erewrite stop_in_batch.
  - exists 2%nat. intros fuel Hfuel. unfold stop_infinite_execution, worker_running.
    rewrite Hw, Ht. cbn [isRunning pc]. rewrite (thread_stop_set_thread _ _ _ Ht).
    rewrite wait_sleeping; [done|by eapply set_thread_lookup|done].
Qed.

(** Claim C7: the continuous runner never has more than one loop: in
    every window that the operations and the steps of the worker threads
    can reach from startup, at most one thread is still running.  A start
    request while the worker runs only shows the "already running"
    information box: no thread is created and nothing else changes.  A
    stop request while no worker runs leaves the runner, the store, the
    file and the desktop as they are (it removes the event filter and
    rewrites the status label).  A stop request that finds the worker
    inside a batch returns the window in which that batch has been run to
    its end, the regions still to do included, before the thread is
    released; and a stop request always returns. *)
Theorem runner_state_machine :
  (forall w, reachable w -> (length (running_threads w) <= 1)%nat) /\
  (forall w, worker_running w = true ->
     start_infinite_execution w = (Ok tt, log (InformationBox AlreadyRunning) w)) /\
  (forall w fuel, worker_running w = false ->
     stop_infinite_execution fuel w =
       Some (log (SetStatus InfiniteStopped) (log RemoveEventFilter w))) /\
  (forall w tid kr orig todo fuel,
     worker_thread w = Some tid ->
     threads w !! tid = Some (mkWorkerThread kr (InBatch orig todo)) ->
     (length todo + 3 <= fuel)%nat ->
     stop_infinite_execution fuel w =
       Some (log (SetStatus InfiniteStopped) (log RemoveEventFilter
              (set_worker_thread None
                 (set_thread tid (mkWorkerThread false Finished)
                    (snd (finish_batch orig todo w))))))) /\
  (forall w, exists fuel0, forall fuel, (fuel0 <= fuel)%nat ->
     is_Some (stop_infinite_execution fuel w)).
Proof.
  split; [|split; [|split; [|split]]].
  - intros w Hw. by apply single_runner_at_most_one, single_runner_reachable.
  - apply start_running.
  - intros w fuel. apply stop_idle.
  - intros w tid kr orig todo fuel. apply stop_in_batch.
  - apply stop_returns.
Qed.

End Join.

(** ** The scenarios on the model desktop *)


Lemma batch_aborts_on_exception_witness :
  fst (execute_all_clicks false failing) = Ok tt /\
  pointer_events (trace (snd (execute_all_clicks false failing))) =
    [MoveTo 35 20; Click; MoveTo 35 20; Click].
Proof.
  pose proof (batch_aborts_on_exception false failing (0, 0) _ [go] edited [] _
                (ExternalError 1) _ eq_refl eq_refl eq_refl eq_refl) as (H & _ & _).
  rewrite H. split; reflexivity.
Defined.

(** Against claim C2 as stated: the batch starts with the pointer at
    (0, 0), clicks the first region at (35, 20) and fails on the second.
    No move back to (0, 0) is issued, in either mode, and the pointer
    stays at (35, 20); in infinite mode nothing is reported either. *)
Lemma batch_exception_no_restore :
  let fg := snd (execute_all_clicks false failing) in
  let bg := snd (execute_all_clicks true failing) in
  (MoveTo 0 0 ∉ trace fg) /\ cursor (desktop fg) = (35, 20) /\
  (MoveTo 0 0 ∉ trace bg) /\ cursor (desktop bg) = (35, 20) /\
  (forall m, WarningBox m ∉ trace bg) /\
  (forall s, SetStatus s ∉ trace bg).
Proof.
  cbn zeta.
  repeat split; intros; vm_compute; try reflexivity; intros Hin;
    repeat (apply elem_of_cons in Hin as [Hin|Hin]; [discriminate Hin|]);
    by apply elem_of_nil in Hin.
Qed.

(** Stopping the runner of [in_flight] lets the region of the batch be
    clicked and the pointer be moved back before the thread is released. *)
Lemma runner_state_machine_witness :
  exists w', stop_infinite_execution 4 in_flight = Some w' /\
    pointer_events (trace w') = [MoveTo 35 20; Click; MoveTo 35 20; Click; MoveTo 0 0] /\
    worker_thread w' = None /\ running_threads w' = [].
Proof.
  destruct (@runner_state_machine model_codecs model_desktop) as (_ & _ & _ & H & _).
  eexists. split.
  - apply (H in_flight 0%nat true (0, 0) [go] 4%nat); [reflexivity..|cbn; lia].
  - repeat split; reflexivity.
Defined.

(** The two runs of the specification's scenario, as whole batches. *)
Example batch_Go :
  pointer_events (trace (snd (execute_all_clicks false (window [go] [Ok "Go"%string])))) =
    [MoveTo 35 20; Click; MoveTo 35 20; Click; MoveTo 0 0].
Proof. reflexivity. Qed.

Example batch_Stop :
  pointer_events (trace (snd (execute_all_clicks false (window [go] [Ok "Stop"%string])))) =
    [MoveTo 0 0].
Proof. reflexivity. Qed.

(** Delete-all on three regions: an empty store and a file holding the
    empty array. *)
Example clear_all_three :
  (fun w => (captures w, json_file w)) <$>
    clear_all_captures true true 0 (window [go; go; edited] []) =
  Some ([], Some (json_dump (PList []))).
Proof. reflexivity. Qed.

(** * Further properties of the program *)

(** ** Evaluation helpers *)

Section Evaluation.
Context `{Cd : Codecs} `{Dk : Desktop}.

Lemma call_eq {A} ev (f : Env -> result A * Env) w r e1 :
  f (desktop w) = (r, e1) -> call ev f w = (r, set_desktop e1 (log ev w)).
Proof. intros Hf. unfold call. cbn [desktop log]. by rewrite Hf. Qed.

Lemma try_except_ext {A} (b1 b2 : M A) h w1 w2 :
  b1 w1 = b2 w2 -> try_except b1 h w1 = try_except b2 h w2.
Proof. unfold try_except. by intros ->. Qed.

Lemma outside_eq {A} (f : Env -> result A * Env) w :
  outside f w = (fst (f (desktop w)), set_desktop (snd (f (desktop w))) w).
Proof. unfold outside. by destruct (f (desktop w)). Qed.

Lemma start_capture_recognized w ix iy iw ih (pixmap : QPixmap) data e1 text e2 :
  temp_read (length (captures w))
    (temp_save (length (captures w)) (pixmap_save_png pixmap) (desktop w)) =
    (Ok data, e1) ->
  ocr_classification data e1 = (Ok text, e2) ->
  start_capture (Some (ix, iy, iw, ih, pixmap)) w =
    remove_if_exists (length (captures w))
      (saved (captures w ++
              [CaptureInfo_init (PInt ix) (PInt iy) (PInt iw) (PInt ih) pixmap (PStr text)])
         (set_desktop e2 (log (Classification data) (log ProcessEvents w)))).
Proof.
  intros Hread Hocr. unfold start_capture, processEvents.
  rewrite (bind_ok (modify _) _ w tt _ eq_refl).
  rewrite (bind_ok get _ _ _ _ eq_refl).
  rewrite (bind_ok (pixmap_save _ _) _ _ tt _ eq_refl).
  cbn [captures log].
  unfold bind at 1, try_except. unfold bind at 1, open_read, outside.
  cbn [desktop set_desktop log]. rewrite Hread.
  unfold bind at 1, classification, call. cbn [desktop set_desktop log].
  by rewrite Hocr.
Qed.

Lemma start_capture_unreadable w ix iy iw ih (pixmap : QPixmap) err e1 :
  temp_read (length (captures w))
    (temp_save (length (captures w)) (pixmap_save_png pixmap) (desktop w)) =
    (Raise err, e1) ->
  start_capture (Some (ix, iy, iw, ih, pixmap)) w =
    remove_if_exists (length (captures w))
      (log (WarningBox (OcrFailed err)) (set_desktop e1 (log ProcessEvents w))).
Proof.
  intros Hread. unfold start_capture, processEvents.
  rewrite (bind_ok (modify _) _ w tt _ eq_refl).
  rewrite (bind_ok get _ _ _ _ eq_refl).
  rewrite (bind_ok (pixmap_save _ _) _ _ tt _ eq_refl).
  cbn [captures log].
  unfold bind at 1, try_except. unfold bind at 1, open_read, outside.
  cbn [desktop set_desktop log]. by rewrite Hread.
Qed.

Lemma start_capture_unrecognized w ix iy iw ih (pixmap : QPixmap) data e1 err e2 :
  temp_read (length (captures w))
    (temp_save (length (captures w)) (pixmap_save_png pixmap) (desktop w)) =
    (Ok data, e1) ->
  ocr_classification data e1 = (Raise err, e2) ->
  start_capture (Some (ix, iy, iw, ih, pixmap)) w =
    remove_if_exists (length (captures w))
      (log (WarningBox (OcrFailed err))
         (set_desktop e2 (log (Classification data) (log ProcessEvents w)))).
Proof.
  intros Hread Hocr. unfold start_capture, processEvents.
  rewrite (bind_ok (modify _) _ w tt _ eq_refl).
  rewrite (bind_ok get _ _ _ _ eq_refl).
  rewrite (bind_ok (pixmap_save _ _) _ _ tt _ eq_refl).
  cbn [captures log].
  unfold bind at 1, try_except. unfold bind at 1, open_read, outside.
  cbn [desktop set_desktop log]. rewrite Hread.
  unfold bind at 1, classification, call. cbn [desktop set_desktop log].
  by rewrite Hocr.
Qed.

(** What [start_capture] can do to the store: nothing, or append one region
    built from the rectangle and save. *)
Lemma start_capture_store w ix iy iw ih (pixmap : QPixmap) :
  let w' := snd (start_capture (Some (ix, iy, iw, ih, pixmap)) w) in
  store w' = store w \/
  exists text,
    captures w' =
      captures w ++
      [CaptureInfo_init (PInt ix) (PInt iy) (PInt iw) (PInt ih) pixmap (PStr text)] /\
    synced w'.
Proof.
  cbn zeta.
  destruct (temp_read (length (captures w))
              (temp_save (length (captures w)) (pixmap_save_png pixmap) (desktop w)))
    as [[data|err] e1] eqn:Hread.
  - destruct (ocr_classification data e1) as [[text|err] e2] eqn:Hocr.
    + rewrite (start_capture_recognized _ _ _ _ _ _ _ _ _ _ Hread Hocr).
      unfold remove_if_exists. rewrite outside_eq. right. by exists text.
    + rewrite (start_capture_unrecognized _ _ _ _ _ _ _ _ _ _ Hread Hocr).
      unfold remove_if_exists. rewrite outside_eq. by left.
  - rewrite (start_capture_unreadable _ _ _ _ _ _ _ _ Hread).
    unfold remove_if_exists. rewrite outside_eq. by left.
Qed.

Lemma next_click_count_in_counts (v : pyval) :
  exists n, next_click_count v = PInt n /\ n ∈ counts.
Proof.
  unfold next_click_count, py_in, py_index, counts, py_eq_int. cbn [existsb].
  destruct (as_int v) as [m|]; [|exists 2; split; [done|apply elem_of_counts; tauto]].
  destruct (m =? 1); [exists 2; split; [done|apply elem_of_counts; tauto]|].
  destruct (m =? 2); [exists 3; split; [done|apply elem_of_counts; tauto]|].
  destruct (m =? 3); [exists 5; split; [done|apply elem_of_counts; tauto]|].
  destruct (m =? 5); [exists 10; split; [done|apply elem_of_counts; tauto]|].
  destruct (m =? 10); [exists 1; split; [done|apply elem_of_counts; tauto]|].
  exists 2; split; [done|apply elem_of_counts; tauto].
Qed.

Lemma wait_store fuel tid : forall w w1,
  wait fuel tid w = Some w1 -> store w1 = store w.
Proof.
  induction fuel as [|fuel IH]; intros w w1; cbn [wait];
    destruct (thread_finished tid w); try done; try by intros [= <-].
  intros Hw. apply IH in Hw. rewrite Hw. apply keeps_store_worker_step.
Qed.

Lemma stop_effect fuel w w' :
  stop_infinite_execution fuel w = Some w' ->
  captures w' = captures w /\ json_file w' = json_file w /\
  worker_running w' = false.
Proof.
  unfold stop_infinite_execution.
  destruct (worker_running w) eqn:Hr.
  - destruct (worker_thread w) as [tid|] eqn:Hw;
      [|by unfold worker_running in Hr; rewrite Hw in Hr].
    destruct (wait fuel tid (thread_stop tid w)) as [w1|] eqn:Hwait; [|done].
    cbn. intros [= <-]. apply wait_store in Hwait. injection Hwait as Hc Hj.
    cbn in Hc, Hj |- *. by rewrite Hc, Hj.
  - cbn. intros [= <-]. by rewrite <- Hr.
Qed.

Lemma filter_none {A} (P : A -> Prop) `{!forall a, Decision (P a)} (l : list A) :
  (forall a, a ∈ l -> ~ P a) -> filter P l = [].
Proof.
  induction l as [|a l IH]; intros Hall; [done|].
  rewrite filter_cons_False by (apply Hall; set_solver).
  apply IH. intros b Hb. apply Hall. set_solver.
Qed.

Lemma none_running w :
  single_runner w -> worker_running w = false -> running_threads w = [].
Proof.
  intros Hs Hr. unfold running_threads. apply filter_none.
  intros tid _ Hf. apply thread_finished_false in Hf as (t & Ht & Hrun).
  by rewrite (single_runner_none_running w Hs Hr tid t Ht) in Hrun.
Qed.

Lemma running_threads_threads w w' :
  threads w' = threads w -> running_threads w' = running_threads w.
Proof. unfold running_threads, thread_finished. by intros ->. Qed.

Lemma synced_store w w' : store w' = store w -> synced w -> synced w'.
Proof. unfold synced. intros [= -> ->]. done. Qed.

Lemma perform_store_or_synced a w w' :
  perform a w = Some w' -> store w' = store w \/ synced w'.
Proof.
  destruct a; cbn [perform].
  - intros [= <-].
    destruct info as [[[[[ix iy] iw] ih] pixmap]|]; [|left; reflexivity].
    destruct (start_capture_store w ix iy iw ih pixmap) as [Hs|(text & _ & Hs)];
      [by left|by right].
  - intros [= <-]. unfold delete_capture.
    destruct (0 <=? current_row); [|left; reflexivity].
    unfold bind, get, lift.
    destruct (list_pop _ _) as [rest|err]; [right; reflexivity|left; reflexivity].
  - intros [= <-]. unfold set_click_count.
    destruct (0 <=? current_row); [|left; reflexivity].
    unfold bind, get, lift.
    destruct (list_getitem _ _) as [cap|err]; [right; reflexivity|left; reflexivity].
  - intros [= <-]. left. by apply (keeps_execute_all_clicks store).
  - intros [= <-]. left. by apply (keeps_execute_single_click store).
  - intros [= <-]. left. unfold start_infinite_execution, bind, get.
    by destruct (worker_running w).
  - intros H. left. apply stop_effect in H as (Hc & Hj & _).
    unfold store. by rewrite Hc, Hj.
  - unfold clear_all_captures. destruct confirmed; cbn [negb];
      [|intros [= <-]; left; reflexivity].
    destruct (stop_infinite_execution fuel w) as [w1|]; [|done].
    cbn. intros [= <-]. right. destruct removed; reflexivity.
  - unfold closeEvent.
    destruct (stop_infinite_execution fuel w) as [w1|]; [|done].
    cbn. intros [= <-]. right. reflexivity.
  - intros [= <-]. left. apply keeps_store_worker_step.
Qed.

Lemma restart_synced `{!CodecsLossless Cd} w (e : Env) :
  synced w ->
  captures (init (json_file w) e) = captures w /\ trace (init (json_file w) e) = [].
Proof.
  intros Hs. unfold init. rewrite Hs.
  erewrite load_list_ok;
    [|reflexivity|apply json_load_dump|apply Forall2_from_dict_to_dict].
  done.
Qed.

End Evaluation.

(** ** Adding a region *)

Section Adding.
Context `{Cd : Codecs} `{Dk : Desktop}.

(** Extra X1: when the temporary file the pixmap was saved to is read
    back and recognition of the bytes read answers [text],
    [start_capture] appends exactly one region after the existing ones,
    with the rectangle of the capture, its pixmap, the recognized text and
    a click count of 1, saves the store, and then removes the temporary
    file; it raises exactly when that removal raises. *)
Theorem start_capture_adds_region w ix iy iw ih (pixmap : QPixmap) data e1 text e2 :
  temp_read (length (captures w))
    (temp_save (length (captures w)) (pixmap_save_png pixmap) (desktop w)) =
    (Ok data, e1) ->
  ocr_classification data e1 = (Ok text, e2) ->
  let r := start_capture (Some (ix, iy, iw, ih, pixmap)) w in
  fst r = fst (temp_remove (length (captures w)) e2) /\
  captures (snd r) =
    captures w ++
    [mkCaptureInfo _ (PInt ix) (PInt iy) (PInt iw) (PInt ih) pixmap
       (PStr text) (PInt 1)] /\
  synced (snd r) /\
  desktop (snd r) = snd (temp_remove (length (captures w)) e2) /\
  trace (snd r) = trace w ++ [ProcessEvents; Classification data].
Proof.
  intros Hread Hocr. cbn zeta.
  rewrite (start_capture_recognized _ _ _ _ _ _ _ _ _ _ Hread Hocr).
  unfold remove_if_exists. rewrite outside_eq.
  cbn. repeat split. by rewrite <- app_assoc.
Qed.

(** Extra X2: a cancelled capture changes nothing but the event queue.
    When the temporary file cannot be read back (nothing was written for
    a null pixmap), the recognizer is not called; when it is read and
    recognition raises, the recognizer was called once.  In both cases
    [start_capture] shows one warning and leaves the store and the file
    as they were, and it raises exactly when removing the temporary file
    raises. *)
Theorem start_capture_without_region w :
  start_capture None w = (Ok tt, log ProcessEvents w) /\
  (forall ix iy iw ih (pixmap : QPixmap),
     let n := length (captures w) in
     let r := start_capture (Some (ix, iy, iw, ih, pixmap)) w in
     (forall err e1,
        temp_read n (temp_save n (pixmap_save_png pixmap) (desktop w)) = (Raise err, e1) ->
        fst r = fst (temp_remove n e1) /\
        captures (snd r) = captures w /\ json_file (snd r) = json_file w /\
        trace (snd r) = trace w ++ [ProcessEvents; WarningBox (OcrFailed err)]) /\
     (forall data e1 err e2,
        temp_read n (temp_save n (pixmap_save_png pixmap) (desktop w)) = (Ok data, e1) ->
        ocr_classification data e1 = (Raise err, e2) ->
        fst r = fst (temp_remove n e2) /\
        captures (snd r) = captures w /\ json_file (snd r) = json_file w /\
        trace (snd r) =
          trace w ++ [ProcessEvents; Classification data; WarningBox (OcrFailed err)])).
Proof.
  split; [done|]. intros ix iy iw ih pixmap. cbn zeta. split.
  - intros err e1 Hread.
    rewrite (start_capture_unreadable _ _ _ _ _ _ _ _ Hread).
    unfold remove_if_exists. rewrite outside_eq.
    cbn. repeat split. by rewrite <- !app_assoc.
  - intros data e1 err e2 Hread Hocr.
    rewrite (start_capture_unrecognized _ _ _ _ _ _ _ _ _ _ Hread Hocr).
    unfold remove_if_exists. rewrite outside_eq.
    cbn. repeat split. by rewrite <- !app_assoc.
Qed.

End Adding.

Lemma start_capture_adds_region_witness :
  fst (start_capture (Some (1, 2, 30, 40, snapshot)) (window [go] [Ok "Hi"%string])) =
    Ok tt /\
  captures (snd (start_capture (Some (1, 2, 30, 40, snapshot))
                   (window [go] [Ok "Hi"%string]))) =
    [go; mkCaptureInfo _ (PInt 1) (PInt 2) (PInt 30) (PInt 40) snapshot
           (PStr "Hi") (PInt 1)] /\
  trace (snd (start_capture (Some (1, 2, 30, 40, snapshot))
                (window [go] [Ok "Hi"%string]))) =
    [ProcessEvents; Classification (pixmap_save_png snapshot)].
Proof.
  edestruct (start_capture_adds_region (window [go] [Ok "Hi"%string]) 1 2 30 40 snapshot)
    as (Hret & Hcaps & _ & _ & Htrace); [reflexivity|reflexivity|].
  split; [exact Hret|]. split; [exact Hcaps|exact Htrace].
Defined.

Lemma start_capture_without_region_witness :
  fst (start_capture (Some (1, 2, 30, 40, blank_screen)) (window [go] [])) = Ok tt /\
  captures (snd (start_capture (Some (1, 2, 30, 40, blank_screen)) (window [go] []))) =
    [go] /\
  json_file (snd (start_capture (Some (1, 2, 30, 40, blank_screen)) (window [go] []))) =
    None /\
  trace (snd (start_capture (Some (1, 2, 30, 40, blank_screen)) (window [go] []))) =
    [] ++ [ProcessEvents; WarningBox (OcrFailed FileNotFoundError)].
Proof.
  destruct (start_capture_without_region (window [go] [])) as [_ H].
  destruct (H 1 2 30 40 blank_screen) as [Hnull _].
  apply (Hnull FileNotFoundError (env [])). reflexivity.
Defined.

(** ** Cycling outside the presets and outside the store *)

Section Cycling.
Context `{Cd : Codecs} `{Dk : Desktop}.

(** Extra X3: whatever the click count of the selected region was,
    [set_click_count] leaves the [click_count] of that region on one of
    the presets, keeps its other fields, the other regions and the length
    of the store, and saves. *)
Theorem set_click_count_lands_on_preset w (i : nat) c :
  captures w !! i = Some c ->
  exists n w',
    n ∈ counts /\
    set_click_count (Z.of_nat i) w = (Ok tt, w') /\
    captures w' !! i =
      Some (mkCaptureInfo _ (x c) (y c) (width c) (height c) (image c)
              (ocr_text c) (PInt n)) /\
    length (captures w') = length (captures w) /\
    (forall j, j <> i -> captures w' !! j = captures w !! j) /\
    synced w'.
Proof.
  intros Hi. destruct (next_click_count_in_counts (click_count c)) as (n & Hn & Hin).
  exists n. eexists. split; [done|]. split; [by apply set_click_count_at|].
  rewrite Hn. cbn. split.
  { rewrite list_lookup_insert_eq by (by apply lookup_lt_Some in Hi). done. }
  split; [by rewrite length_insert|].
  split; [|done]. intros j Hj. by rewrite list_lookup_insert_ne.
Qed.

(** Extra X4: with nothing selected (a negative row) [set_click_count]
    does nothing; with a row at or past the end of the store the
    subscript raises [IndexError] and nothing changes. *)
Theorem set_click_count_out_of_range w (row : Z) :
  (row < 0 -> set_click_count row w = (Ok tt, w)) /\
  (Z.of_nat (length (captures w)) <= row ->
   set_click_count row w = (Raise IndexError, w)).
Proof.
  unfold set_click_count. split; intros Hr.
  - destruct (Z.leb_spec 0 row); [lia|done].
  - destruct (Z.leb_spec 0 row); [|lia].
    unfold bind, get, lift, list_getitem. by rewrite list_index_too_large.
Qed.

End Cycling.

Lemma set_click_count_lands_on_preset_witness :
  exists n w',
    n ∈ counts /\
    set_click_count 0 (window [edited] []) = (Ok tt, w') /\
    captures w' !! 0%nat =
      Some (mkCaptureInfo _ (PInt 10) (PInt 10) (PInt 50) (PInt 20) [] (PStr "Go")
              (PInt n)) /\
    length (captures w') = 1%nat /\
    (forall j, j <> 0%nat -> captures w' !! j = [edited] !! j) /\
    synced w'.
Proof.
  apply (set_click_count_lands_on_preset (window [edited] []) 0%nat edited).
  reflexivity.
Defined.

Lemma set_click_count_out_of_range_witness :
  set_click_count 5 (window [go] []) = (Raise IndexError, window [go] []).
Proof.
  destruct (set_click_count_out_of_range (window [go] []) 5) as [_ H].
  apply H. cbn. lia.
Defined.

(** ** The file follows the store *)

Section Following.
Context `{Cd : Codecs} `{Dk : Desktop}.

(** Extra X5: no operation and no worker step breaks the agreement of the
    file with the store, and every one that changes the store leaves the
    file holding exactly the new store. *)
Theorem file_follows_store a w w' :
  perform a w = Some w' ->
  (synced w -> synced w') /\ (captures w' <> captures w -> synced w').
Proof.
  intros Hp. destruct (perform_store_or_synced _ _ _ Hp) as [Hs|Hs].
  - split; [by apply synced_store|]. intros Hne. by injection Hs.
  - done.
Qed.

(** Extra X6: after any operation that changed the store, starting the
    program again on the file it left loads exactly that store, without a
    warning (PNG and the json codec being lossless). *)
Theorem restart_after_change `{!CodecsLossless Cd} a w w' (e : Env) :
  perform a w = Some w' -> captures w' <> captures w ->
  captures (init (json_file w') e) = captures w' /\
  trace (init (json_file w') e) = [].
Proof.
  intros Hp Hne. apply restart_synced.
  destruct (perform_store_or_synced _ _ _ Hp) as [Hs|Hs]; [|done].
  exfalso. apply Hne. by injection Hs.
Qed.

End Following.

Lemma file_follows_store_witness :
  synced (snd (delete_capture 0 (window [go; edited] []))).
Proof.
  apply (file_follows_store (DoDeleteCapture 0) (window [go; edited] [])); [reflexivity|].
  vm_compute. discriminate.
Defined.

Lemma restart_after_change_witness :
  captures (init (json_file (snd (delete_capture 0 (window [go; edited] [])))) (env []))
    = [edited].
Proof.
  assert (L : CodecsLossless model_codecs) by (split; reflexivity).
  apply (restart_after_change (DoDeleteCapture 0) (window [go; edited] [])
           (snd (delete_capture 0 (window [go; edited] []))) (env []));
    [reflexivity|].
  vm_compute. discriminate.
Defined.

(** ** What the continuous mode shows the user *)

Section Emits.
Context `{Cd : Codecs} `{Dk : Desktop}.

Lemma emits_nothing {A} P (m : M A) :
  (forall w, trace (snd (m w)) = trace w) -> emits P m.
Proof. intros H w. exists []. by rewrite app_nil_r, H. Qed.

Lemma emits_ret {A} P (a : A) : emits P (ret a).
Proof. by apply emits_nothing. Qed.

Lemma emits_lift {A} P (r : result A) : emits P (lift r).
Proof. by apply emits_nothing. Qed.

Lemma emits_get P : emits P get.
Proof. by apply emits_nothing. Qed.

Lemma emits_bind {A B} P (m : M A) (k : A -> M B) :
  emits P m -> (forall a, emits P (k a)) -> emits P (bind m k).
Proof.
  intros Hm Hk w. unfold bind. destruct (Hm w) as (n1 & H1 & P1).
  destruct (m w) as [[a|e] w1]; cbn [snd] in *; [|eauto].
  destruct (Hk a w1) as (n2 & H2 & P2). exists (n1 ++ n2).
  by rewrite H2, H1, app_assoc, forallb_app, P1, P2.
Qed.

Lemma emits_try_except {A} P (m : M A) (h : exn -> M A) :
  emits P m -> (forall e, emits P (h e)) -> emits P (try_except m h).
Proof.
  intros Hm Hh w. unfold try_except. destruct (Hm w) as (n1 & H1 & P1).
  destruct (m w) as [[a|e] w1]; cbn [snd] in *; [eauto|].
  destruct (Hh e w1) as (n2 & H2 & P2). exists (n1 ++ n2).
  by rewrite H2, H1, app_assoc, forallb_app, P1, P2.
Qed.

Lemma emits_when P (b : bool) (m : M unit) :
  (b = true -> emits P m) -> emits P (when_ b m).
Proof. destruct b; [auto|intros _; apply emits_ret]. Qed.

Lemma emits_for_each {A} P (body : A -> M unit) (l : list A) :
  (forall a, emits P (body a)) -> emits P (for_each body l).
Proof.
  intros Hb. induction l as [|a l IH]; cbn [for_each].
  - apply emits_ret.
  - apply emits_bind; [apply Hb|intros _; apply IH].
Qed.

Lemma emits_log (P : Event -> bool) (ev : Event) :
  P ev = true -> emits P (modify (log ev)).
Proof. intros HP w. exists [ev]. cbn. by rewrite HP. Qed.

Lemma emits_call {A} (P : Event -> bool) (ev : Event) (f : Env -> result A * Env) :
  P ev = true -> emits P (call ev f).
Proof.
  intros HP w. exists [ev]. unfold call. cbn.
  destruct (f (desktop w)). cbn. by rewrite HP.
Qed.

Lemma emits_sleep (P : Event -> bool) ms : P (Sleep ms) = true -> emits P (sleep ms).
Proof. intros HP w. exists [Sleep ms]. cbn. by rewrite HP. Qed.

Lemma emits_set_pc P tid p : emits P (set_pc tid p).
Proof. by apply emits_nothing. Qed.

End Emits.

Ltac emits_step :=
  first
    [ apply emits_bind; [|intros ?]
    | apply emits_try_except; [|intros ?]
    | apply emits_when; intros ?
    | apply emits_for_each; intros ?
    | apply emits_ret
    | apply emits_lift
    | apply emits_get
    | apply emits_set_pc
    | apply emits_log; reflexivity
    | apply emits_call; reflexivity
    | apply emits_sleep; reflexivity
    | discriminate
    | match goal with |- emits _ (if ?b then _ else _) => destruct b end ].

Section Silent.
Context `{Cd : Codecs} `{Dk : Desktop}.

Lemma silent_click_loop c cx cy i k : emits is_silent (click_loop true c cx cy i k).
Proof.
  revert i. induction k as [|k IH]; intros i; cbn [click_loop].
  - apply emits_ret.
  - unfold setText, processEvents, moveTo, click.
    repeat first [apply IH | emits_step].
Qed.

Lemma silent_process_capture c : emits is_silent (process_capture true c).
Proof.
  unfold process_capture, screenshot, classification, setText, processEvents.
  repeat first [apply silent_click_loop | emits_step].
Qed.

Lemma silent_batch_prologue : emits is_silent (batch_prologue true).
Proof. unfold batch_prologue, position, setText, processEvents. repeat emits_step. Qed.

Lemma silent_batch_epilogue orig : emits is_silent (batch_epilogue true orig).
Proof. unfold batch_epilogue, moveTo, setText. repeat emits_step. Qed.

Lemma silent_batch_handler e : emits is_silent (batch_handler true e).
Proof. unfold batch_handler, setText, warning. repeat emits_step. Qed.

(** Extra X7: a batch run with [is_infinite = True], and so every step of
    the worker thread, never writes the status label and never opens a
    dialog, whatever the desktop answers: an empty store, a failing
    screenshot or recognition all pass without a word to the user. *)
Theorem infinite_mode_is_silent :
  emits is_silent (execute_all_clicks true) /\
  (forall tid, emits is_silent (worker_step tid)).
Proof.
  split.
  - unfold execute_all_clicks.
    repeat first [ apply silent_process_capture | apply silent_batch_prologue
                 | apply silent_batch_epilogue | apply silent_batch_handler
                 | emits_step ].
  - intros tid. unfold worker_step.
    apply emits_bind; [apply emits_get|]. intros w.
    destruct (threads w !! tid) as [t|]; [|apply emits_ret].
    destruct (pc t) as [|orig [|c todo]| |]; [destruct (keep_running t)|..];
    repeat first [ apply silent_process_capture | apply silent_batch_prologue
                 | apply silent_batch_epilogue | apply silent_batch_handler
                 | emits_step ].
Qed.

End Silent.

(** ** Stopping, clearing, closing and starting *)

Section Halting.
Context `{Cd : Codecs} `{Dk : Desktop}.

(** Extra X8: whenever [stop_infinite_execution] returns, every worker
    thread has left [run] (the one that was running has finished its
    batch and seen its flag cleared), and that batch changed neither the
    store nor the file. *)
Theorem stop_keeps_store_and_halts fuel w w' :
  single_runner w ->
  stop_infinite_execution fuel w = Some w' ->
  running_threads w' = [] /\
  (forall tid, tid < length (threads w') -> thread_finished tid w' = true)%nat /\
  captures w' = captures w /\ json_file w' = json_file w.
Proof.
  intros Hs Hstop.
  pose proof (single_runner_stop _ _ _ Hs Hstop) as Hs'.
  destruct (stop_effect _ _ _ Hstop) as (Hc & Hj & Hr).
  split; [by apply none_running|]. split; [|done].
  intros tid Hlt. destruct (thread_finished tid w') eqn:Hf; [done|].
  apply thread_finished_false in Hf as (t & Ht & Hrun).
  by rewrite (single_runner_none_running w' Hs' Hr tid t Ht) in Hrun.
Qed.

(** Extra X9: a confirmed [clear_all_captures] that returns has let every
    worker thread leave [run] and emptied the store, and the file it
    leaves makes the next start of the program load an empty store
    without a warning, whether or not [os.remove] of the JSON file
    succeeded. *)
Theorem clear_all_captures_effect `{!CodecsLossless Cd} removed fuel w w' (e : Env) :
  single_runner w ->
  clear_all_captures true removed fuel w = Some w' ->
  running_threads w' = [] /\ captures w' = [] /\
  captures (init (json_file w') e) = [] /\ trace (init (json_file w') e) = [].
Proof.
  intros Hs. unfold clear_all_captures. cbn [negb].
  destruct (stop_infinite_execution fuel w) as [w1|] eqn:Hstop; [|done].
  pose proof (single_runner_stop _ _ _ Hs Hstop) as Hs1.
  destruct (stop_effect _ _ _ Hstop) as (_ & _ & Hr).
  cbn. intros [= <-].
  split; [|split].
  - rewrite <- (none_running w1 Hs1 Hr). apply running_threads_threads.
    by destruct removed.
  - by destruct removed.
  - assert (Hsync : synced (if removed
                            then log (InformationBox AllDeleted)
                                   (set_json_file (Some (json_dump (PList [])))
                                      (log (SetStatus AllCleared) (set_captures [] w1)))
                            else log (WarningBox RemoveFailed)
                                   (set_json_file (Some (json_dump (PList [])))
                                      (log (SetStatus AllCleared) (set_captures [] w1)))))
      by (by destruct removed).
    destruct (restart_synced _ e Hsync) as [Hcap Htr].
    split; [|exact Htr]. rewrite Hcap. by destruct removed.
Qed.

(** Extra X10: closing the window, when it returns, has let every worker
    thread leave [run] and written the store, unchanged, to the file. *)
Theorem closeEvent_saves_and_halts fuel w w' :
  single_runner w ->
  closeEvent fuel w = Some w' ->
  running_threads w' = [] /\ captures w' = captures w /\ synced w'.
Proof.
  intros Hs. unfold closeEvent.
  destruct (stop_infinite_execution fuel w) as [w1|] eqn:Hstop; [|done].
  pose proof (single_runner_stop _ _ _ Hs Hstop) as Hs1.
  destruct (stop_effect _ _ _ Hstop) as (Hc & _ & Hr).
  cbn. intros [= <-].
  split; [|cbn; rewrite <- Hc; by split].
  rewrite <- (none_running w1 Hs1 Hr). by apply running_threads_threads.
Qed.

(** Extra X11: started while no worker runs, [start_infinite_execution]
    creates exactly one new thread, at the head of its loop with its flag
    set, makes it the window's worker and the only thread alive, shows the
    start dialog, installs the event filter and writes the status label;
    the store and the file are untouched. *)
Theorem start_spawns_one_worker w :
  single_runner w -> worker_running w = false ->
  let w' := snd (start_infinite_execution w) in
  threads w' = threads w ++ [mkWorkerThread true AtLoopHead] /\
  worker_thread w' = Some (length (threads w)) /\
  running_threads w' = [length (threads w)] /\
  worker_running w' = true /\
  captures w' = captures w /\ json_file w' = json_file w /\
  trace w' = trace w ++ [StartDialog; InstallEventFilter; SetStatus InfiniteStarted].
Proof.
  intros Hs Hr. cbn zeta. unfold start_infinite_execution, bind, get. rewrite Hr.
  cbn. split; [done|]. split; [done|]. split; [|split; [|split; [done|split; [done|]]]].
  - unfold running_threads. cbn [threads set_threads set_worker_thread log].
    rewrite length_app. cbn [length]. rewrite Nat.add_1_r, seq_S, filter_app. cbn [Nat.add].
    match goal with |- context [thread_finished _ ?st] => set (w' := st) end.
    assert (Hold : filter (fun tid => thread_finished tid w' = false)
                     (seq 0 (length (threads w))) = []).
    { apply filter_none.
      intros tid Hin Hf. apply elem_of_seq in Hin.
      apply thread_finished_false in Hf as (t & Ht & Hrun).
      subst w'. cbn in Ht. rewrite lookup_app_l in Ht by lia.
      by rewrite (single_runner_none_running w Hs Hr tid t Ht) in Hrun. }
    rewrite Hold. cbn [app].
    rewrite filter_cons_True; [done|].
    apply thread_finished_false. exists (mkWorkerThread true AtLoopHead).
    split; [|reflexivity].
    subst w'. cbn. by rewrite lookup_app_r, Nat.sub_diag.
  - unfold worker_running. cbn. by rewrite lookup_app_r, Nat.sub_diag.
  - by rewrite <- !app_assoc.
Qed.

End Halting.

Lemma stop_keeps_store_and_halts_witness :
  match stop_infinite_execution 4 in_flight with
  | Some w' =>
      running_threads w' = [] /\
      (forall tid, tid < length (threads w') -> thread_finished tid w' = true)%nat /\
      captures w' = [go] /\ json_file w' = None
  | None => False
  end.
Proof.
  destruct (stop_infinite_execution 4 in_flight) as [w'|] eqn:Hstop.
  - apply (stop_keeps_store_and_halts 4 in_flight w'); [|exact Hstop].
    intros tid t Ht Hrun. destruct tid; [reflexivity|discriminate Ht].
  - vm_compute in Hstop. discriminate Hstop.
Defined.

Lemma clear_all_captures_effect_witness :
  match clear_all_captures true true 4 in_flight with
  | Some w' =>
      running_threads w' = [] /\ captures w' = [] /\
      captures (init (json_file w') (env [])) = [] /\
      trace (init (json_file w') (env [])) = []
  | None => False
  end.
Proof.
  assert (L : CodecsLossless model_codecs) by (split; reflexivity).
  destruct (clear_all_captures true true 4 in_flight) as [w'|] eqn:Hclear.
  - apply (clear_all_captures_effect true 4 in_flight w' (env [])); [|exact Hclear].
    intros tid t Ht Hrun. destruct tid; [reflexivity|discriminate Ht].
  - vm_compute in Hclear. discriminate Hclear.
Defined.

Lemma closeEvent_saves_and_halts_witness :
  match closeEvent 4 in_flight with
  | Some w' => running_threads w' = [] /\ captures w' = [go] /\ synced w'
  | None => False
  end.
Proof.
  destruct (closeEvent 4 in_flight) as [w'|] eqn:Hclose.
  - apply (closeEvent_saves_and_halts 4 in_flight w'); [|exact Hclose].
    intros tid t Ht Hrun. destruct tid; [reflexivity|discriminate Ht].
  - vm_compute in Hclose. discriminate Hclose.
Defined.

Lemma start_spawns_one_worker_witness :
  running_threads (snd (start_infinite_execution (window [go] []))) = [0%nat].
Proof.
  destruct (start_spawns_one_worker (window [go] [])) as (_ & _ & H & _).
  - intros tid t Ht. destruct tid; discriminate Ht.
  - reflexivity.
  - apply H.
Defined.

(** ** The click executor at its edges *)

Section Edges.
Context `{Cd : Codecs} `{Dk : Desktop}.

Lemma emits_pointer_events {A} (m : M A) w :
  emits not_pointer m ->
  exists new, trace (snd (m w)) = trace w ++ new /\ pointer_events new = [].
Proof.
  intros Hm. destruct (Hm w) as (new & Ht & Hp). exists new. split; [done|].
  unfold pointer_events. clear Ht. induction new as [|ev new IH]; [done|].
  cbn in Hp. apply andb_true_iff in Hp as [Hev Hp].
  rewrite filter_cons_False; [by apply IH|].
  unfold not_pointer in Hev. intros Hn. destruct (is_pointer_event ev); done.
Qed.

Lemma emits_bind_lift {A B} P (r : result A) (k : A -> M B) :
  (forall a, r = Ok a -> emits P (k a)) -> emits P (bind (lift r) k).
Proof.
  intros Hk. destruct r as [a|e].
  - intros w. apply (Hk a eq_refl).
  - intros w. exists []. by rewrite app_nil_r.
Qed.

Lemma no_number_as_int (v : pyval) : no_number v = true -> as_int v = None.
Proof. by destruct v. Qed.

(** Extra X12: a region that is not ready is never touched: when its text
    is no string, when one of its bounds or its click count is [None], a
    string, a list or a dictionary, or when its click count is an integer
    that is zero or negative (or [False]), [process_capture] neither moves
    the pointer nor clicks, whatever recognition answers. *)
Theorem process_capture_unready_region inf c w :
  (forall s, ocr_text c <> PStr s) \/
  no_number (x c) = true \/ no_number (width c) = true \/
  no_number (y c) = true \/ no_number (height c) = true \/
  no_number (click_count c) = true \/
  (exists n, click_count c = PInt n /\ n <= 0) \/
  click_count c = PBool false ->
  exists new,
    trace (snd (process_capture inf c w)) = trace w ++ new /\ pointer_events new = [].
Proof.
  intros Hbad.
  assert (Hbad' :
    (exists e, py_strip (ocr_text c) = Raise e) \/
    (exists e, py_center (x c) (width c) = Raise e) \/
    (exists e, py_center (y c) (height c) = Raise e) \/
    (exists e, py_range (click_count c) = Raise e) \/
    py_range (click_count c) = Ok O).
  { destruct Hbad as [Ht|[Hx|[Hw|[Hy|[Hh|[Hn|[(n & Hn & Hle)|Hf]]]]]]].
    - left. exists AttributeError. destruct (ocr_text c) as [| | |s| |]; try done.
      by destruct (Ht s).
    - right. left. exists TypeError. unfold py_center.
      by rewrite (no_number_as_int _ Hx).
    - right. left. exists TypeError. unfold py_center.
      rewrite (no_number_as_int _ Hw). by destruct (as_int (x c)).
    - right. right. left. exists TypeError. unfold py_center.
      by rewrite (no_number_as_int _ Hy).
    - right. right. left. exists TypeError. unfold py_center.
      rewrite (no_number_as_int _ Hh). by destruct (as_int (y c)).
    - right. right. right. left. exists TypeError. unfold py_range.
      by rewrite (no_number_as_int _ Hn).
    - right. right. right. right. unfold py_range. rewrite Hn. cbn.
      f_equal. lia.
    - right. right. right. right. unfold py_range. by rewrite Hf. }
  clear Hbad. rename Hbad' into Hbad.
  apply emits_pointer_events. unfold process_capture.
  apply emits_bind; [by apply emits_call|]. intros img.
  apply emits_bind; [by apply emits_call|]. intros cur.
  apply emits_bind_lift. intros expected Hexp.
  destruct (String.eqb (strip cur) expected).
  - apply emits_bind_lift. intros cx Hcx.
    apply emits_bind_lift. intros cy Hcy.
    apply emits_bind_lift. intros n Hn.
    destruct Hbad as [[e He]|[[e He]|[[e He]|[[e He]|He]]]]; try congruence.
    assert (n = O) as -> by congruence. apply emits_ret.
  - apply emits_bind; [|intros _; apply emits_bind; [|intros _]].
    + apply emits_when. intros _. by apply emits_log.
    + by apply emits_log.
    + by apply emits_sleep.
Qed.

(** Extra X13: [execute_single_click] with no row selected, or with a row
    at or past the end of the store, only shows the warning that asks for
    a selection: no status text, no screenshot, no pointer event. *)
Theorem execute_single_click_no_selection w (row : Z) :
  row < 0 \/ Z.of_nat (length (captures w)) <= row ->
  execute_single_click row w = (Ok tt, log (WarningBox SelectARegionFirst) w).
Proof.
  intros Hrow. unfold execute_single_click, bind, get.
  destruct (Z.ltb_spec row 0); [done|].
  destruct (Z.leb_spec (Z.of_nat (length (captures w))) row); [done|lia].
Qed.

(** Extra X14: when the pointer position cannot be read, a batch ends
    before any region is looked at and still returns normally; a manual
    batch then shows the error in the status label and in a warning, the
    continuous mode shows nothing. *)
Theorem batch_without_position inf w err e0 :
  pyautogui_position (desktop w) = (Raise err, e0) ->
  let r := execute_all_clicks inf w in
  fst r = Ok tt /\
  trace (snd r) =
    trace w ++ (if inf then [] else [SetStatus BatchStarted]) ++
    [ProcessEvents; Position] ++
    (if inf then [] else [SetStatus (BatchError err); WarningBox (ExecuteFailed err)]) /\
  desktop (snd r) = e0.
Proof.
  intros Hpos. cbn zeta.
  unfold execute_all_clicks, try_except, batch_prologue, bind, position, call,
    processEvents, setText, modify.
  destruct inf; cbn; rewrite Hpos; cbn; by rewrite <- ?app_assoc.
Qed.

Lemma execute_all_clicks_after_loop inf w original w0 w1 :
  batch_prologue inf w = (Ok original, w0) ->
  for_each (process_capture inf) (captures w) w0 = (Ok tt, w1) ->
  execute_all_clicks inf w =
    try_except (batch_epilogue inf original) (batch_handler inf) w1.
Proof.
  intros Hpro Hloop.
  unfold execute_all_clicks, try_except.
  unfold bind at 1. rewrite Hpro. unfold bind at 1, get.
  pose proof (world_only_keeps captures _ (fun _ _ => eq_refl)
                (world_only_batch_prologue inf) w) as Hk.
  rewrite Hpro in Hk. cbn [snd] in Hk. rewrite Hk.
  unfold bind at 1. by rewrite Hloop.
Qed.

(** Extra X15: when every region of a batch was processed without an
    exception, the batch returns normally and the one pointer event after
    the last region is the move back to the position read at the start. *)
Theorem batch_restores_pointer inf w original w0 w1 :
  batch_prologue inf w = (Ok original, w0) ->
  for_each (process_capture inf) (captures w) w0 = (Ok tt, w1) ->
  let r := execute_all_clicks inf w in
  fst r = Ok tt /\
  exists tail,
    trace (snd r) = trace w1 ++ MoveTo (fst original) (snd original) :: tail /\
    pointer_events tail = [].
Proof.
  intros Hpro Hloop. cbn zeta.
  rewrite (execute_all_clicks_after_loop inf w original w0 w1 Hpro Hloop).
  unfold try_except, batch_epilogue, bind, moveTo, call, batch_handler. cbn [desktop log].
  destruct (pyautogui_moveTo _ _ _) as [[[]|err] e1]; destruct inf; cbn;
    (split; [done|]); eexists; (split; [rewrite <- ?app_assoc; reflexivity|done]).
Qed.

Lemma execute_single_click_recognized w (i : nat) c (X Y W H ox oy : Z)
    (t cur : string) e0 img e1 e2 :
  captures w !! i = Some c ->
  x c = PInt X -> y c = PInt Y -> width c = PInt W -> height c = PInt H ->
  ocr_text c = PStr t ->
  pyautogui_position (desktop w) = (Ok (ox, oy), e0) ->
  pyautogui_screenshot (x c) (y c) (width c) (height c) e0 = (Ok img, e1) ->
  ocr_classification (image_save_png img) e1 = (Ok cur, e2) ->
  execute_single_click (Z.of_nat i) w =
    try_except
      ((if String.eqb (strip cur) (strip t)
        then setText (SingleClicking (ocr_text c)) >> processEvents >>
             moveTo (X + W / 2) (Y + H / 2) >> click >> sleep 200
        else setText (Skipped (ocr_text c) cur) >> processEvents >> sleep 500) >>
       moveTo ox oy >> setText SingleDone)
      (fun e => setText (SingleError e) >> warning (ExecuteFailed e))
      (after_recognition c img e1 e2
         (set_desktop e0 (log Position (log ProcessEvents
            (log (SetStatus SingleStarted) w))))).
Proof.
  intros Hi Hx Hy Hw Hh Ht Hpos Hshot Hocr.
  unfold execute_single_click.
  rewrite (bind_ok get _ w w w eq_refl).
  apply lookup_lt_Some in Hi as Hlen.
  destruct (Z.ltb_spec (Z.of_nat i) 0); [lia|].
  destruct (Z.leb_spec (Z.of_nat (length (captures w))) (Z.of_nat i)); [lia|].
  cbn [orb].
  rewrite (bind_ok (lift _) _ w c w) by (unfold lift; by rewrite (list_getitem_lookup _ _ _ Hi)).
  apply try_except_ext.
  rewrite (bind_ok (setText _) _ w tt _ eq_refl).
  rewrite (bind_ok processEvents _ _ tt _ eq_refl).
  set (w1 := log ProcessEvents (log (SetStatus SingleStarted) w)).
  rewrite (bind_ok position _ w1 (ox, oy) _ (call_eq Position _ w1 _ _ Hpos)).
  set (w2 := set_desktop e0 (log Position w1)).
  rewrite (bind_ok (screenshot _ _ _ _) _ w2 img _
             (call_eq (Screenshot _ _ _ _) _ w2 _ _ Hshot)).
  set (w3 := set_desktop e1 (log (Screenshot _ _ _ _) w2)).
  rewrite (bind_ok (classification _) _ w3 cur _
             (call_eq (Classification _) _ w3 _ _ Hocr)).
  rewrite Ht. rewrite (bind_ok (lift _) _ _ (strip t) _ eq_refl).
  unfold after_recognition. subst w1 w2 w3. cbn [fst snd].
  destruct (String.eqb (strip cur) (strip t)); [|reflexivity].
  rewrite Hx, Hy, Hw, Hh. reflexivity.
Qed.

Ltac inv_bind H Hm := apply bind_inv_ok in H as ([] & ? & Hm & H).

(** Extra X16: a single-region test that ends with its completion status
    has clicked the centre of the region exactly once when the recognized
    text matched (the click count of the region plays no part), has not
    touched the region otherwise, and in both cases has moved the pointer
    back to where it was as its last pointer event. *)
Theorem execute_single_click_completes w (i : nat) c (X Y W H ox oy : Z)
    (t cur : string) e0 img e1 e2 :
  captures w !! i = Some c ->
  x c = PInt X -> y c = PInt Y -> width c = PInt W -> height c = PInt H ->
  ocr_text c = PStr t ->
  pyautogui_position (desktop w) = (Ok (ox, oy), e0) ->
  pyautogui_screenshot (x c) (y c) (width c) (height c) e0 = (Ok img, e1) ->
  ocr_classification (image_save_png img) e1 = (Ok cur, e2) ->
  let r := execute_single_click (Z.of_nat i) w in
  last (trace (snd r)) = Some (SetStatus SingleDone) ->
  exists new,
    trace (snd r) = trace w ++ new /\
    pointer_events new =
      if String.eqb (strip cur) (strip t)
      then [MoveTo (X + W / 2) (Y + H / 2); Click; MoveTo ox oy]
      else [MoveTo ox oy].
Proof.
  intros Hi Hx Hy Hw Hh Ht Hpos Hshot Hocr. cbn zeta.
  rewrite (execute_single_click_recognized w i c X Y W H ox oy t cur e0 img e1 e2)
    by done.
  set (w3 := after_recognition _ _ _ _ _).
  assert (Hw3 : trace w3 = trace w ++
            [SetStatus SingleStarted; ProcessEvents; Position;
             Screenshot (x c) (y c) (width c) (height c);
             Classification (image_save_png img)]).
  { subst w3. unfold after_recognition. cbn [trace log set_desktop].
    by rewrite <- !app_assoc. }
  unfold try_except.
  match goal with |- context [match ?b w3 with _ => _ end] =>
    destruct (b w3) as [[[]|err] w'] eqn:Hbody end.
  2:{ cbn. rewrite last_snoc. discriminate. }
  cbn [snd]. intros _.
  inv_bind Hbody Hbranch. inv_bind Hbody Hrestore. injection Hbody as <-.
  apply call_inv_ok in Hrestore as (e5 & _ & ->).
  destruct (String.eqb (strip cur) (strip t)).
  - inv_bind Hbranch H1. inv_bind Hbranch H2. inv_bind Hbranch H3.
    inv_bind Hbranch H4. injection Hbranch as <-.
    injection H1 as <-. injection H2 as <-.
    apply call_inv_ok in H3 as (e3 & _ & ->).
    apply call_inv_ok in H4 as (e4 & _ & ->).
    cbn [trace log set_desktop]. rewrite Hw3. eexists.
    split; [rewrite <- !app_assoc; reflexivity|reflexivity].
  - inv_bind Hbranch H1. inv_bind Hbranch H2. injection Hbranch as <-.
    injection H1 as <-. injection H2 as <-.
    cbn [trace log set_desktop]. rewrite Hw3. eexists.
    split; [rewrite <- !app_assoc; reflexivity|reflexivity].
Qed.

End Edges.

Lemma process_capture_unready_region_witness :
  exists new,
    trace (snd (process_capture false zero_clicks (window [zero_clicks] [Ok "Go"%string])))
      = [] ++ new /\
    pointer_events new = [].
Proof.
  apply (process_capture_unready_region false zero_clicks
           (window [zero_clicks] [Ok "Go"%string])).
  right. right. right. right. right. right. left. exists 0. split; [reflexivity|lia].
Defined.

Lemma execute_single_click_no_selection_witness :
  execute_single_click (-1) (window [go] []) =
    (Ok tt, log (WarningBox SelectARegionFirst) (window [go] [])).
Proof.
  apply (execute_single_click_no_selection (window [go] []) (-1)). left. lia.
Defined.

Lemma batch_without_position_witness :
  fst (execute_all_clicks true headless_window) = Ok tt /\
  trace (snd (execute_all_clicks true headless_window)) =
    [] ++ [] ++ [ProcessEvents; Position] ++ [] /\
  desktop (snd (execute_all_clicks true headless_window)) = tt.
Proof.
  apply (batch_without_position true headless_window (ExternalError 2) tt).
  reflexivity.
Defined.

Lemma batch_restores_pointer_witness :
  fst (execute_all_clicks false (window [go] [Ok "Go"%string])) = Ok tt.
Proof.
  destruct (batch_restores_pointer false (window [go] [Ok "Go"%string]) (0, 0)
              (snd (batch_prologue false (window [go] [Ok "Go"%string])))
              (snd (for_each (process_capture false) [go]
                      (snd (batch_prologue false (window [go] [Ok "Go"%string]))))))
    as [H _].
  - reflexivity.
  - vm_compute. reflexivity.
  - apply H.
Defined.

Lemma execute_single_click_completes_witness :
  exists new,
    trace (snd (execute_single_click 0 (window [go] [Ok "Go"%string]))) = [] ++ new /\
    pointer_events new = [MoveTo 35 20; Click; MoveTo 0 0].
Proof.
  apply (execute_single_click_completes (window [go] [Ok "Go"%string]) 0%nat go
           10 10 50 20 0 0 "Go" "Go" (env [Ok "Go"%string]) tt
           (env [Ok "Go"%string]) (env []));
    try reflexivity.
Defined.

(** ** One iteration of the worker *)

Section Loop.
Context `{Cd : Codecs} `{Dk : Desktop}.

Lemma at_loop_head_set_thread tid t t0 w :
  threads w !! tid = Some t0 ->
  at_loop_head tid (set_thread tid t w) =
    match pc t with AtLoopHead | Finished => true | _ => false end.
Proof.
  intros Ht. unfold at_loop_head. by rewrite (set_thread_lookup _ _ _ _ Ht).
Qed.

Lemma run_step_head_running tid w :
  threads w !! tid = Some (mkWorkerThread true AtLoopHead) ->
  run_step tid w =
    match batch_prologue true w with
    | (Ok original, w0) =>
        set_thread tid (mkWorkerThread true (InBatch original (captures w0))) w0
    | (Raise _, w0) => set_thread tid (mkWorkerThread true Sleeping) w0
    end.
Proof.
  intros Ht. unfold run_step, worker_step.
  rewrite (bind_ok get _ w w w eq_refl). rewrite Ht. cbn [pc keep_running].
  pose proof (world_only_threads _ w (world_only_batch_prologue true)) as Hth.
  unfold try_except. unfold bind at 1.
  destruct (batch_prologue true w) as [[original|err] w0]; cbn [snd] in Hth;
    rewrite <- Hth in Ht.
  - rewrite (bind_ok get _ w0 w0 w0 eq_refl).
    by rewrite (set_pc_set_thread _ _ _ _ Ht).
  - unfold batch_handler. cbn [negb when_].
    rewrite (bind_ok (ret tt) _ w0 tt w0 eq_refl).
    by rewrite (set_pc_set_thread _ _ _ _ Ht).
Qed.

Lemma run_iteration_sleeping fuel tid kr w :
  threads w !! tid = Some (mkWorkerThread kr Sleeping) -> (1 <= fuel)%nat ->
  run_iteration fuel tid w =
    Some (set_thread tid (mkWorkerThread kr AtLoopHead) (snd (sleep 1000 w))).
Proof.
  intros Ht Hfuel. destruct fuel as [|fuel]; [lia|]. cbn [run_iteration].
  rewrite (run_step_sleeping _ _ _ Ht).
  by rewrite (at_loop_head_set_thread _ _ (mkWorkerThread kr Sleeping)).
Qed.

Lemma run_iteration_in_batch tid kr orig todo : forall fuel w,
  threads w !! tid = Some (mkWorkerThread kr (InBatch orig todo)) ->
  (length todo + 2 <= fuel)%nat ->
  run_iteration fuel tid w =
    Some (set_thread tid (mkWorkerThread kr AtLoopHead) (snd (finish_batch orig todo w))).
Proof.
  induction todo as [|c todo IH]; intros fuel w Ht Hfuel;
    (destruct fuel as [|fuel]; [cbn in Hfuel; lia|]); cbn [run_iteration].
  - rewrite (run_step_batch_end _ _ _ _ Ht), finish_batch_nil.
    set (wa := snd (try_except _ _ w)).
    assert (Hwa : threads wa !! tid = Some (mkWorkerThread kr (InBatch orig []))).
    { subst wa. rewrite world_only_threads; [done|].
      apply world_only_try_except; [apply world_only_batch_epilogue|].
      intros e. apply world_only_batch_handler. }
    rewrite (at_loop_head_set_thread _ _ _ _ Hwa). cbn [pc].
    rewrite (run_iteration_sleeping _ _ kr); [|by eapply set_thread_lookup|cbn in Hfuel; lia].
    rewrite (world_only_set_thread _ _ _ _ (world_only_sleep 1000)). cbn [snd].
    by rewrite set_thread_set_thread.
  - rewrite (run_step_region _ _ _ _ _ _ Ht), finish_batch_cons.
    pose proof (world_only_threads _ w (world_only_process_capture true c)) as Hth.
    destruct (process_capture true c w) as [[[]|e] w1]; cbn [snd] in Hth;
      rewrite <- Hth in Ht;
      rewrite (at_loop_head_set_thread _ _ _ _ Ht); cbn [pc].
    + rewrite IH; [|by eapply set_thread_lookup|cbn in Hfuel; lia].
      rewrite (world_only_set_thread _ _ _ _ (world_only_finish_batch orig todo)).
      cbn [snd]. by rewrite set_thread_set_thread.
    + rewrite (run_iteration_sleeping _ _ kr); [|by eapply set_thread_lookup|cbn in Hfuel; lia].
      rewrite (world_only_set_thread _ _ _ _ (world_only_sleep 1000)). cbn [snd].
      by rewrite set_thread_set_thread.
Qed.

Lemma set_thread_same tid t w : threads w !! tid = Some t -> set_thread tid t w = w.
Proof.
  intros Ht. unfold set_thread. rewrite list_insert_id by done. by destruct w.
Qed.

(** Extra X17: the steps of a worker from the head of its loop, flag set,
    to its next arrival there always terminate (the number of regions plus
    three steps are enough) and leave the window exactly as one call of
    [execute_all_clicks(infinite_mode=True)] followed by [time.sleep(1)]
    does. *)
Theorem worker_iteration_is_a_batch tid fuel w :
  threads w !! tid = Some (mkWorkerThread true AtLoopHead) ->
  (length (captures w) + 3 <= fuel)%nat ->
  run_iteration fuel tid w = Some (snd ((execute_all_clicks true >> sleep 1000) w)).
Proof.
  intros Ht Hfuel. destruct fuel as [|fuel]; [lia|]. cbn [run_iteration].
  rewrite (run_step_head_running _ _ Ht).
  pose proof (world_only_threads _ w (world_only_batch_prologue true)) as Hth.
  pose proof (world_only_keeps captures _ (fun _ _ => eq_refl)
                (world_only_batch_prologue true) w) as Hcap.
  assert (Hbig : (execute_all_clicks true >> sleep 1000) w =
            match batch_prologue true w with
            | (Ok original, w0) => finish_batch original (captures w0) w0
            | (Raise _, w0) => sleep 1000 w0
            end).
  { unfold execute_all_clicks, finish_batch. unfold bind at 1. unfold try_except at 1.
    unfold bind at 1.
    destruct (batch_prologue true w) as [[original|err] w0]; [|reflexivity].
    rewrite (bind_ok get _ w0 w0 w0 eq_refl). reflexivity. }
  rewrite Hbig.
  destruct (batch_prologue true w) as [[original|err] w0]; cbn [snd] in Hth, Hcap;
    rewrite <- Hth in Ht; rewrite (at_loop_head_set_thread _ _ _ _ Ht); cbn [pc].
  - rewrite (run_iteration_in_batch tid true original (captures w0));
      [|by eapply set_thread_lookup|rewrite Hcap; lia].
    rewrite (world_only_set_thread _ _ _ _ (world_only_finish_batch original _)).
    cbn [snd]. rewrite set_thread_set_thread. f_equal. apply set_thread_same.
    by rewrite (world_only_threads _ w0 (world_only_finish_batch original _)).
  - rewrite (run_iteration_sleeping _ _ true); [|by eapply set_thread_lookup|lia].
    rewrite (world_only_set_thread _ _ _ _ (world_only_sleep 1000)). cbn [snd].
    rewrite set_thread_set_thread. f_equal. apply set_thread_same.
    by rewrite (world_only_threads _ w0 (world_only_sleep 1000)).
Qed.

End Loop.

Lemma worker_iteration_is_a_batch_witness :
  run_iteration 4 0 at_head =
    Some (snd ((execute_all_clicks true >> sleep 1000) at_head)).
Proof.
  apply (worker_iteration_is_a_batch 0%nat 4%nat at_head); [reflexivity|cbn; lia].
Defined.

(** ** The capture overlay *)

Section OverlayFacts.
Context `{Cd : Codecs} `{Cr : !Cropping Cd} `{Dk : Desktop}.

Lemma yield_ok_event ev s : yield_ok s -> yield_ok (overlay_event ev s).
Proof.
  unfold overlay_event. destruct (isVisible s) eqn:Hv; [|done].
  intros Hs.
  assert (Hnone : capture_info s = None).
  { unfold yield_ok in Hs. destruct (capture_info s) as [[[[[? ?] ?] ?] ?]|]; [|done].
    destruct Hs as (_ & _ & _ & Hv'). congruence. }
  destruct ev as [button pos|pos|button|esc].
  - unfold mousePressEvent. destruct (is_left button); [|done].
    unfold yield_ok. cbn. by rewrite Hnone.
  - unfold mouseMoveEvent. destruct (is_drawing s); [|done].
    unfold yield_ok. cbn. by rewrite Hnone.
  - unfold mouseReleaseEvent.
    destruct (is_left button && is_drawing s); [|done].
    destruct (qpoint_bool (begin s) && qpoint_bool (end_ s));
      [|unfold yield_ok; cbn; by rewrite Hnone].
    destruct (0 <? _) eqn:Hx; cbn [andb]; [|unfold yield_ok; cbn; by rewrite Hnone].
    destruct (0 <? _ - Z.min (snd _) _) eqn:Hy; [|unfold yield_ok; cbn; by rewrite Hnone].
    unfold yield_ok. cbn. repeat split; lia.
  - unfold keyPressEvent. destruct esc; [|done].
    unfold yield_ok. cbn. by rewrite Hnone.
Qed.

Lemma original_screenshot_event ev s :
  original_screenshot (overlay_event ev s) = original_screenshot s.
Proof.
  unfold overlay_event. destruct (isVisible s); [|done].
  destruct ev as [button pos|pos|button|esc]; cbn.
  - unfold mousePressEvent. by destruct (is_left button).
  - unfold mouseMoveEvent. by destruct (is_drawing s).
  - unfold mouseReleaseEvent.
    repeat match goal with |- context [if ?b then _ else _] => destruct b end; done.
  - unfold keyPressEvent. by destruct esc.
Qed.

Lemma overlay_run_yield_ok (screen : QPixmap) (evs : list OverlayEvent) x1 y1 w h img :
  capture_info (overlay_run evs (shown screen)) = Some (x1, y1, w, h, img) ->
  0 < w /\ 0 < h /\ img = pixmap_copy screen x1 y1 w h /\
  isVisible (overlay_run evs (shown screen)) = false.
Proof.
  assert (H : forall s, yield_ok s ->
            yield_ok (overlay_run evs s) /\
            original_screenshot (overlay_run evs s) = original_screenshot s).
  { unfold overlay_run. induction evs as [|ev evs IH]; intros s Hs; [done|].
    cbn [foldl]. destruct (IH (overlay_event ev s)) as [H1 H2].
    - by apply yield_ok_event.
    - split; [done|]. by rewrite H2, original_screenshot_event. }
  destruct (H (shown screen) I) as [Hy Ho]. intros Hc.
  unfold yield_ok in Hy. rewrite Hc, Ho in Hy. exact Hy.
Qed.

(** Extra X18: whatever mouse and key events the overlay receives, a
    rectangle it yields has positive width and height, its image is the
    snapshot cropped to that rectangle, and the overlay has closed. *)
Theorem overlay_yields_positive_rectangle (screen : QPixmap) (evs : list OverlayEvent)
    x1 y1 w h img :
  capture_info (overlay_run evs (shown screen)) = Some (x1, y1, w, h, img) ->
  0 < w /\ 0 < h /\ img = pixmap_copy screen x1 y1 w h /\
  isVisible (overlay_run evs (shown screen)) = false.
Proof.
  assert (H : forall s, yield_ok s ->
            yield_ok (overlay_run evs s) /\
            original_screenshot (overlay_run evs s) = original_screenshot s).
  { unfold overlay_run. induction evs as [|ev evs IH]; intros s Hs; [done|].
    cbn [foldl]. destruct (IH (overlay_event ev s)) as [H1 H2].
    - by apply yield_ok_event.
    - split; [done|]. by rewrite H2, original_screenshot_event. }
  destruct (H (shown screen) I) as [Hy Ho]. intros Hc.
  unfold yield_ok in Hy. rewrite Hc, Ho in Hy. exact Hy.
Qed.

(** Extra X19: a left-button drag from [p] to [q] yields the rectangle
    spanned by the two points, in whatever direction it was drawn, and
    closes the overlay; when the points share a coordinate, or one of them
    is the origin of the screen (a null [QPoint] is false), nothing is
    yielded and the overlay stays open. *)
Theorem overlay_drag (screen : QPixmap) (p q : Z * Z) :
  let s := overlay_run [MousePress LeftButton p; MouseMove q; MouseRelease LeftButton]
             (shown screen) in
  if qpoint_bool p && qpoint_bool q &&
     negb (fst p =? fst q) && negb (snd p =? snd q)
  then
    capture_info s =
      Some (Z.min (fst p) (fst q), Z.min (snd p) (snd q),
            Z.abs (fst p - fst q), Z.abs (snd p - snd q),
            pixmap_copy screen (Z.min (fst p) (fst q)) (Z.min (snd p) (snd q))
              (Z.abs (fst p - fst q)) (Z.abs (snd p - snd q))) /\
    isVisible s = false
  else capture_info s = None /\ isVisible s = true.
Proof.
  destruct p as [px py], q as [qx qy]. cbn zeta.
  cbn [overlay_run foldl overlay_event shown isVisible mousePressEvent is_left
       mouseMoveEvent is_drawing mouseReleaseEvent andb begin end_ fst snd
       original_screenshot capture_info].
  destruct (qpoint_bool (px, py)); cbn [andb]; [|done].
  destruct (qpoint_bool (qx, qy)); cbn [andb]; [|done].
  destruct (Z.eqb_spec px qx) as [->|Hx]; cbn [negb andb].
  { rewrite Z.max_id, Z.min_id, Z.sub_diag. done. }
  destruct (Z.eqb_spec py qy) as [->|Hy]; cbn [negb andb].
  { rewrite (Z.max_id qy), (Z.min_id qy), Z.sub_diag.
    by destruct (0 <? _). }
  assert (Hdx : Z.max px qx - Z.min px qx = Z.abs (px - qx)) by lia.
  assert (Hdy : Z.max py qy - Z.min py qy = Z.abs (py - qy)) by lia.
  rewrite Hdx, Hdy.
  destruct (Z.ltb_spec 0 (Z.abs (px - qx))); [|lia].
  destruct (Z.ltb_spec 0 (Z.abs (py - qy))); [|lia].
  done.
Qed.

(** Extra X20: a region that [start_capture] adds from what the overlay
    yielded has integer bounds of positive width and height, the cropped
    snapshot as its image, and a click count of 1. *)
Theorem overlay_region_has_positive_size (screen : QPixmap) (evs : list OverlayEvent)
    w c :
  captures (snd (start_capture (capture_info (overlay_run evs (shown screen))) w)) =
    captures w ++ [c] ->
  exists X Y W H,
    x c = PInt X /\ y c = PInt Y /\ width c = PInt W /\ height c = PInt H /\
    0 < W /\ 0 < H /\ image c = pixmap_copy screen X Y W H /\
    click_count c = PInt 1.
Proof.
  assert (Hno : forall l : list CaptureInfo, l = l ++ [c] -> False).
  { intros l Hl. apply (f_equal length) in Hl. rewrite length_app in Hl. cbn in Hl. lia. }
  destruct (capture_info _) as [[[[[X Y] W] H] img]|] eqn:Hc.
  - apply overlay_run_yield_ok in Hc as (HW & HH & Himg & _).
    destruct (start_capture_store w X Y W H img) as [Hs|(text & Hadd & _)].
    + injection Hs as Hs _. rewrite Hs. intros Hcap. by apply Hno in Hcap.
    + rewrite Hadd. intros Hcap. apply app_inj_tail in Hcap as [_ <-].
      exists X, Y, W, H. by repeat split.
  - cbn. intros Hcap. by apply Hno in Hcap.
Qed.

End OverlayFacts.

Lemma overlay_yields_positive_rectangle_witness :
  0 < 30 /\ 0 < 20 /\ blank_screen = pixmap_copy blank_screen 10 10 30 20 /\
  isVisible (overlay_run drag_up_left (shown blank_screen)) = false.
Proof.
  apply (overlay_yields_positive_rectangle blank_screen drag_up_left 10 10 30 20
           blank_screen).
  reflexivity.
Defined.

Lemma overlay_region_has_positive_size_witness :
  exists X Y W H,
    x (CaptureInfo_init (PInt 10) (PInt 10) (PInt 30) (PInt 20) snapshot (PStr "Hi"))
      = PInt X /\
    y (CaptureInfo_init (PInt 10) (PInt 10) (PInt 30) (PInt 20) snapshot (PStr "Hi"))
      = PInt Y /\
    width (CaptureInfo_init (PInt 10) (PInt 10) (PInt 30) (PInt 20) snapshot
             (PStr "Hi")) = PInt W /\
    height (CaptureInfo_init (PInt 10) (PInt 10) (PInt 30) (PInt 20) snapshot
              (PStr "Hi")) = PInt H /\
    0 < W /\ 0 < H /\
    image (CaptureInfo_init (PInt 10) (PInt 10) (PInt 30) (PInt 20) snapshot
             (PStr "Hi")) = pixmap_copy snapshot X Y W H /\
    click_count (CaptureInfo_init (PInt 10) (PInt 10) (PInt 30) (PInt 20) snapshot
                   (PStr "Hi")) = PInt 1.
Proof.
  apply (overlay_region_has_positive_size snapshot drag_up_left
           (window [go] [Ok "Hi"%string])).
  reflexivity.
Defined.

(** ** AutoClicker and the records of the file *)

Section Records.
Context `{Cd : Codecs} `{Dk : Desktop}.

(** Extra X21: [AutoClicker.click] never raises: it moves the pointer and
    clicks once; when the move raises it does not click, and whichever
    call raised, the exception is caught and printed. *)
Theorem AutoClicker_click_never_raises (px py : Z) w :
  let r := AutoClicker_click px py w in
  exists printed new,
    fst r = Ok printed /\ trace (snd r) = trace w ++ new /\
    ((printed = None /\ new = [MoveTo px py; Click]) \/
     (exists err, printed = Some err /\ new = [MoveTo px py; Click] /\
        exists e1 e2, pyautogui_moveTo px py (desktop w) = (Ok tt, e1) /\
                      pyautogui_click e1 = (Raise err, e2)) \/
     (exists err e1, printed = Some err /\ new = [MoveTo px py] /\
        pyautogui_moveTo px py (desktop w) = (Raise err, e1))).
Proof.
  cbn zeta. unfold AutoClicker_click, try_except, bind, moveTo, click, call, ret.
  cbn [desktop log set_desktop].
  destruct (pyautogui_moveTo px py (desktop w)) as [[[]|err] e1] eqn:Hm.
  - cbn [desktop log set_desktop].
    destruct (pyautogui_click e1) as [[[]|err] e2] eqn:Hc; cbn.
    + exists None. eexists. split; [done|]. split; [by rewrite <- app_assoc|].
      by left.
    + exists (Some err). eexists. split; [done|]. split; [by rewrite <- app_assoc|].
      right. left. exists err. repeat split. by exists e1, e2.
  - cbn. exists (Some err). eexists. split; [done|]. split; [done|].
    right. right. by exists err, e1.
Qed.

(** Extra X22: how [from_dict] fails: on a value that is no dictionary
    with [TypeError]; without the key [encoded_image] with the [KeyError]
    of that key, before anything else is read; on an image that does not
    decode with the error of the decoder; and with the image decoded but
    one of [x], [y], [width], [height], [ocr_text] missing, with the
    [KeyError] of a missing key. *)
Theorem from_dict_errors :
  (forall data, (forall d, data <> PDict d) -> from_dict data = Raise TypeError) /\
  (forall d : gmap string pyval,
     d !! "encoded_image"%string = None ->
     from_dict (PDict d) = Raise (KeyError "encoded_image")) /\
  (forall (d : gmap string pyval) encoded err,
     d !! "encoded_image"%string = Some encoded -> b64decode encoded = Raise err ->
     from_dict (PDict d) = Raise err) /\
  (forall (d : gmap string pyval) encoded decoded,
     d !! "encoded_image"%string = Some encoded -> b64decode encoded = Ok decoded ->
     (exists k, k ∈ required_keys /\ d !! k = None) ->
     exists k, k ∈ required_keys /\ d !! k = None /\
               from_dict (PDict d) = Raise (KeyError k)).
Proof.
  split; [|split; [|split]].
  - intros data Hd. destruct data; try done. by destruct (Hd d).
  - intros d Hn. unfold from_dict, py_getitem. by rewrite Hn.
  - intros d encoded err He Hb. unfold from_dict, py_getitem. rewrite He.
    cbn [rbind]. by rewrite Hb.
  - intros d encoded decoded He Hb (k & Hk & Hnone).
    unfold from_dict, py_getitem. rewrite He. cbn [rbind]. rewrite Hb. cbn [rbind].
    unfold required_keys in *.
    destruct (d !! "x"%string) eqn:Hx;
      [cbn [rbind]|exists "x"%string; split; [|done]; repeat constructor].
    destruct (d !! "y"%string) eqn:Hy;
      [cbn [rbind]|exists "y"%string; split; [|done]; repeat constructor].
    destruct (d !! "width"%string) eqn:Hw;
      [cbn [rbind]|exists "width"%string; split; [|done]; repeat constructor].
    destruct (d !! "height"%string) eqn:Hh;
      [cbn [rbind]|exists "height"%string; split; [|done]; repeat constructor].
    destruct (d !! "ocr_text"%string) eqn:Ht;
      [cbn [rbind]|exists "ocr_text"%string; split; [|done]; repeat constructor].
    exfalso.
    repeat (apply elem_of_cons in Hk as [->|Hk]; [congruence|]).
    by apply elem_of_nil in Hk.
Qed.

(** Extra X23: [from_dict] reads seven keys and no other: adding or
    changing any other key of a record changes neither the region it
    yields nor the exception it raises. *)
Theorem from_dict_ignores_unknown_keys (d : gmap string pyval) (k : string) (v : pyval) :
  k ∉ record_keys ->
  from_dict (PDict (<[k := v]> d)) = from_dict (PDict d).
Proof.
  intros Hk. unfold record_keys, required_keys in Hk. cbn [app] in Hk.
  assert (Hne : forall k', k' ∈ ["encoded_image"; "x"; "y"; "width"; "height";
                                 "ocr_text"; "click_count"]%string -> k <> k').
  { intros k' Hk' ->. done. }
  unfold from_dict, py_getitem, py_get.
  rewrite !lookup_insert_ne by (apply Hne; repeat constructor). done.
Qed.

End Records.

Lemma from_dict_errors_witness :
  from_dict (PDict ∅) = Raise (KeyError "encoded_image").
Proof.
  destruct from_dict_errors as (_ & H & _). apply H. reflexivity.
Defined.

Lemma from_dict_ignores_unknown_keys_witness :
  from_dict (PDict (<["note"%string := PStr "x"]> legacy_record)) =
    from_dict (PDict legacy_record).
Proof.
  apply (from_dict_ignores_unknown_keys legacy_record "note" (PStr "x")).
  apply (bool_decide_unpack _). vm_compute. exact I.
Defined.

(** ** Trimming *)

Lemma append_String (c : ascii) (p s : string) :
  String.append (String c p) s = String c (String.append p s).
Proof. reflexivity. Qed.

Lemma append_EmptyString (s : string) : String.append EmptyString s = s.
Proof. reflexivity. Qed.

Lemma lstrip_blank_app (p s : string) :
  is_blank p = true -> lstrip (String.append p s) = lstrip s.
Proof.
  induction p as [|c p IH]; [done|]. cbn [is_blank].
  intros Hp. apply andb_true_iff in Hp as [Hc Hp].
  rewrite append_String. cbn [lstrip]. rewrite Hc. by apply IH.
Qed.

Lemma lstrip_blank (q : string) : is_blank q = true -> lstrip q = EmptyString.
Proof.
  induction q as [|c q IH]; cbn [lstrip is_blank]; [done|].
  intros Hq. apply andb_true_iff in Hq as [Hc Hq]. rewrite Hc. by apply IH.
Qed.

Lemma rstrip_blank (q : string) : is_blank q = true -> rstrip q = EmptyString.
Proof.
  induction q as [|c q IH]; cbn [rstrip is_blank]; [done|].
  intros Hq. apply andb_true_iff in Hq as [Hc Hq]. by rewrite (IH Hq), Hc.
Qed.

Lemma rstrip_app_blank (s q : string) :
  is_blank q = true -> rstrip (String.append s q) = rstrip s.
Proof.
  intros Hq. induction s as [|c s IH].
  - rewrite append_EmptyString. by apply rstrip_blank.
  - rewrite append_String. cbn [rstrip]. by rewrite IH.
Qed.

Lemma strip_app_blank (s q : string) :
  is_blank q = true -> strip (String.append s q) = strip s.
Proof.
  intros Hq. unfold strip. induction s as [|c s IH].
  - rewrite append_EmptyString. by rewrite (lstrip_blank q Hq).
  - rewrite append_String. cbn [lstrip]. destruct (is_space c); [exact IH|].
    rewrite <- append_String. by apply rstrip_app_blank.
Qed.

Lemma rstrip_rstrip (s : string) : rstrip (rstrip s) = rstrip s.
Proof.
  induction s as [|c s IH]; cbn [rstrip]; [done|].
  destruct (rstrip s) as [|c' t] eqn:Hr.
  - destruct (is_space c) eqn:Hc; cbn [rstrip]; [done|]. by rewrite Hc.
  - change (rstrip (String c (String c' t))) with
      (match rstrip (String c' t) with
       | EmptyString => if is_space c then EmptyString else String c EmptyString
       | u => String c u
       end).
    by rewrite IH.
Qed.

Lemma lstrip_rstrip_lstrip (s : string) : lstrip (rstrip (lstrip s)) = rstrip (lstrip s).
Proof.
  induction s as [|c s IH]; cbn [lstrip rstrip]; [done|].
  destruct (is_space c) eqn:Hc; [exact IH|].
  cbn [rstrip]. destruct (rstrip s); rewrite ?Hc; cbn [lstrip]; by rewrite Hc.
Qed.

(** Extra X24: the comparison of the executor ignores surrounding
    whitespace: a recognized text that is the stored text between two runs
    of whitespace trims to the same string and so compares equal, and
    trimming twice is trimming once. *)
Theorem strip_ignores_surrounding_blanks (p s q : string) :
  is_blank p = true -> is_blank q = true ->
  strip (String.append p (String.append s q)) = strip s /\
  String.eqb (strip (String.append p (String.append s q))) (strip s) = true /\
  strip (strip s) = strip s.
Proof.
  intros Hp Hq.
  assert (H1 : strip (String.append p (String.append s q)) = strip s).
  { unfold strip. rewrite (lstrip_blank_app _ _ Hp). by apply strip_app_blank. }
  split; [done|]. split; [rewrite H1; apply String.eqb_refl|].
  unfold strip. by rewrite lstrip_rstrip_lstrip, rstrip_rstrip.
Qed.

Lemma strip_ignores_surrounding_blanks_witness :
  strip (String.append "  " (String.append "Go" " ")) = strip "Go" /\
  String.eqb (strip (String.append "  " (String.append "Go" " "))) (strip "Go") = true /\
  strip (strip "Go") = strip "Go".
Proof.
  apply (strip_ignores_surrounding_blanks "  " "Go" " "); reflexivity.
Defined.

(** ** Files that hold no list, and regions that stay well formed *)

Section LoadShapes.
Context `{Cd : Codecs} `{Dk : Desktop}.

Lemma load_parsed w text v :
  json_file w = Some text -> json_load text = Ok v ->
  load_captures_from_json w =
    try_except
      (let* items := lift (py_iter v) in
       for_each (fun item => let* capture := lift (from_dict item) in
                             append_capture capture) items)
      (fun e => warning (ReadFailed e)) (set_captures [] w).
Proof.
  intros Hf Hl. unfold load_captures_from_json. rewrite Hf.
  apply try_except_ext.
  rewrite (bind_ok (lift (json_load text)) _ w v w) by (unfold lift; by rewrite Hl).
  by rewrite (bind_ok (modify _) _ w tt _ eq_refl).
Qed.

Lemma load_first_item_fails w text v item items err :
  json_file w = Some text -> json_load text = Ok v ->
  py_iter v = Ok (item :: items) -> from_dict item = Raise err ->
  load_captures_from_json w =
    (Ok tt, log (WarningBox (ReadFailed err)) (set_captures [] w)).
Proof.
  intros Hf Hl Hit Hfd. rewrite (load_parsed w text v Hf Hl).
  unfold try_except.
  rewrite (bind_ok (lift (py_iter v)) _ _ (item :: items) _)
    by (unfold lift; by rewrite Hit).
  cbn [for_each].
  rewrite (bind_raise _ _ _ err (set_captures [] w)); [done|].
  apply bind_raise. unfold lift. by rewrite Hfd.
Qed.

(** Extra X25: a file that parses to something other than a list leaves
    the program with an empty store: silently for an empty object or an
    empty string (iterating them yields nothing), with one read-failure
    warning carrying [TypeError] for every other document. *)
Theorem load_document_that_is_no_list (e : Env) text v :
  json_load text = Ok v -> (forall l, v <> PList l) ->
  let w := init (Some text) e in
  captures w = [] /\
  (v = PDict ∅ \/ v = PStr EmptyString -> trace w = []) /\
  (v <> PDict ∅ -> v <> PStr EmptyString ->
   trace w = [WarningBox (ReadFailed TypeError)]).
Proof.
  intros Hl Hv. cbn zeta. unfold init.
  set (w0 := mkMainWindow _ _ [] None [] (Some text) e []).
  assert (Hraise : py_iter v = Raise TypeError ->
            load_captures_from_json w0 = (Ok tt, log (WarningBox (ReadFailed TypeError)) w0)).
  { intros Hit. rewrite (load_parsed w0 text v eq_refl Hl). unfold try_except.
    rewrite (bind_raise _ _ _ TypeError (set_captures [] w0)); [done|].
    unfold lift. by rewrite Hit. }
  assert (Hempty : py_iter v = Ok [] -> load_captures_from_json w0 = (Ok tt, w0)).
  { intros Hit. rewrite (load_parsed w0 text v eq_refl Hl). unfold try_except.
    rewrite (bind_ok (lift (py_iter v)) _ _ [] _) by (unfold lift; by rewrite Hit).
    done. }
  destruct v as [|b|n|s|l|d].
  - rewrite Hraise by done. repeat split; try done. by intros [|].
  - rewrite Hraise by done. repeat split; try done. by intros [|].
  - rewrite Hraise by done. repeat split; try done. by intros [|].
  - destruct s as [|c s].
    + rewrite Hempty by done. repeat split; try done.
    + erewrite (load_first_item_fails w0 text _ (PStr (String c EmptyString)) _
                  TypeError eq_refl Hl); [| |reflexivity].
      * repeat split; try done. by intros [|].
      * reflexivity.
  - by destruct (Hv l).
  - destruct (map_to_list d) as [|[k v0] kvs] eqn:Hd.
    + apply map_to_list_empty_iff in Hd as ->.
      rewrite Hempty by done. repeat split; try done.
    + rewrite (load_first_item_fails w0 text _ (PStr k) (PStr <$> kvs.*1)
                 TypeError eq_refl Hl); [| |done].
      * repeat split; try done. intros [[= ->]|]; [|done].
        by rewrite map_to_list_empty in Hd.
      * cbn [py_iter]. by rewrite Hd.
Qed.

Lemma list_getitem_inv {A} (l : list A) (row : Z) (a : A) :
  0 <= row -> list_getitem l row = Ok a -> l !! Z.to_nat row = Some a.
Proof.
  intros Hrow. unfold list_getitem, list_index.
  destruct (Z.ltb_spec row 0); [lia|].
  destruct (_ && _); cbn [rbind]; [|done].
  by destruct (l !! Z.to_nat row) as [a'|]; intros [= ->].
Qed.

Lemma program_made_with_click_count c v :
  program_made c -> program_made (with_click_count c (next_click_count v)).
Proof.
  intros (X & Y & W & H & t & n & Hx & Hy & Hw & Hh & Ht & _ & _).
  destruct (next_click_count_in_counts v) as (m & Hm & Hin).
  exists X, Y, W, H, t, m. rewrite Hm. by repeat split.
Qed.

(** Extra X26: the program never makes a region ill formed: when every
    region of the store has integer bounds, a string text and a preset
    click count, the same holds after any operation and any worker step.
    Regions with other values can only come from the file. *)
Theorem program_made_is_kept a w w' :
  Forall program_made (captures w) -> perform a w = Some w' ->
  Forall program_made (captures w').
Proof.
  intros Hall. destruct a; cbn [perform].
  - intros [= <-].
    destruct info as [[[[[ix iy] iw] ih] pixmap]|]; [|done].
    destruct (start_capture_store w ix iy iw ih pixmap) as [Hs|(text & Hadd & _)].
    + injection Hs as Hs _. by rewrite Hs.
    + rewrite Hadd. apply Forall_app. split; [done|]. apply Forall_singleton.
      exists ix, iy, iw, ih, text, 1. repeat split. apply elem_of_counts. tauto.
  - intros [= <-]. unfold delete_capture.
    destruct (0 <=? current_row); [|done].
    unfold bind, get, lift, list_pop.
    destruct (list_index (captures w) current_row) as [j|err]; cbn; [|done].
    by apply Forall_delete.
  - intros [= <-]. unfold set_click_count.
    destruct (Z.leb_spec 0 current_row); [|done].
    unfold bind, get, lift.
    destruct (list_getitem (captures w) current_row) as [cap|err] eqn:Hg; cbn; [|done].
    apply list_getitem_inv in Hg; [|done].
    apply Forall_insert; [done|]. apply program_made_with_click_count.
    by eapply Forall_lookup_1.
  - intros [= <-]. by rewrite (keeps_execute_all_clicks captures false (fun _ _ => eq_refl)).
  - intros [= <-].
    by rewrite (keeps_execute_single_click captures current_row (fun _ _ => eq_refl)).
  - intros [= <-]. unfold start_infinite_execution, bind, get.
    by destruct (worker_running w).
  - intros Hs. apply stop_effect in Hs as (-> & _). done.
  - unfold clear_all_captures. destruct confirmed; cbn [negb]; [|by intros [= <-]].
    destruct (stop_infinite_execution fuel w) as [w1|]; [|done].
    cbn. intros [= <-]. by destruct removed.
  - unfold closeEvent.
    destruct (stop_infinite_execution fuel w) as [w1|] eqn:Hs; [|done].
    cbn. intros [= <-]. apply stop_effect in Hs as (Hc & _).
    cbn. by rewrite Hc.
  - intros [= <-].
    pose proof (keeps_store_worker_step tid w) as Hk. injection Hk as Hk _.
    unfold run_step. by rewrite Hk.
Qed.

End LoadShapes.

Lemma load_document_that_is_no_list_witness :
  captures (init (Some (json_dump (PInt 3))) (env [])) = [] /\
  (PInt 3 = PDict ∅ \/ PInt 3 = PStr EmptyString ->
   trace (init (Some (json_dump (PInt 3))) (env [])) = []) /\
  (PInt 3 <> PDict ∅ -> PInt 3 <> PStr EmptyString ->
   trace (init (Some (json_dump (PInt 3))) (env [])) = [WarningBox (ReadFailed TypeError)]).
Proof.
  apply (load_document_that_is_no_list (env []) (json_dump (PInt 3)) (PInt 3));
    [reflexivity|discriminate].
Defined.

Lemma program_made_is_kept_witness :
  Forall program_made (captures (snd (set_click_count 0 (window [go] [])))).
Proof.
  apply (program_made_is_kept (DoSetClickCount 0) (window [go] [])); [|reflexivity].
  apply Forall_singleton. exists 10, 10, 50, 20, "Go"%string, 2.
  repeat split. apply elem_of_counts. tauto.
Defined.
